(** * Yatube posts application: the view layer of [posts/views.py]

    A shallow embedding of the request handlers of [posts/views.py] and of
    the framework services they call (the paginator, the [login_required]
    and [cache_page] decorators, [get_object_or_404], model forms), followed
    by the properties of the handlers.

    The relational store is a record of tables (lists of rows).  The
    handlers are computations in a state-and-exception monad; its state
    holds the tables, the page cache, the wall clock as the request reads
    it, and a count of the querysets that the handlers have had the store
    evaluate.

    Three services lie outside the application and are parameters of the
    model: Python's [int] on strings, the decoder behind the image field,
    and the storage that names an uploaded file. *)

From Stdlib Require Import ZArith Ascii String List Lia.
From stdpp Require Import base option list gmap strings.

Local Open Scope string_scope.
Local Open Scope Z_scope.

(** ** Python's [int(str)]

    [request.GET.get("page")] is a string (or [None]); the paginator calls
    [int] on it, and the form calls it on the key of a group.  On ASCII,
    [int] strips surrounding white space, reads an optional sign and then
    decimal digits, single underscores allowed between digits: that is
    [PyInt.ascii_int].  Beyond ASCII, what [int] reads depends on the
    interpreter: it takes every decimal digit and every white space of
    Unicode, and newer interpreters refuse a string of more than 4300
    digits.  The views are therefore modelled over any reader [int] that
    agrees with [PyInt.ascii_int] wherever that one reads a number from a
    string of at most 4300 characters. *)

Module PyInt.

Definition is_space (c : ascii) : bool :=
  let n := nat_of_ascii c in
  ((9 <=? n) && (n <=? 13))%nat || (n =? 32)%nat.

Definition digit (c : ascii) : option Z :=
  let n := nat_of_ascii c in
  if ((48 <=? n) && (n <=? 57))%nat then Some (Z.of_nat n - 48) else None.

Fixpoint lstrip (s : string) : string :=
  match s with
  | String c s' => if is_space c then lstrip s' else s
  | EmptyString => EmptyString
  end.

(** [digits acc after_digit s]: the digits of [s] read into [acc];
    [after_digit] says that the previous character was a digit, which is
    where an underscore or the trailing white space may start. *)
Fixpoint digits (acc : Z) (after_digit : bool) (s : string) : option Z :=
  match s with
  | EmptyString => if after_digit then Some acc else None
  | String c s' =>
      match digit c with
      | Some d => digits (10 * acc + d) true s'
      | None =>
          if after_digit then
            if Ascii.eqb c "_" then
              match s' with
              | String c' _ =>
                  match digit c' with
                  | Some _ => digits acc false s'
                  | None => None
                  end
              | EmptyString => None
              end
            else if is_space c then
              match lstrip s' with
              | EmptyString => Some acc
              | _ => None
              end
            else None
          else None
      end
  end.

Definition ascii_int (s : string) : option Z :=
  match lstrip s with
  | String "-" s' => Z.opp <$> digits 0 false s'
  | String "+" s' => digits 0 false s'
  | s' => digits 0 false s'
  end.

End PyInt.

Class PythonInt := {
  int : string → option Z;
  int_ascii s n :
    (String.length s ≤ 4300)%nat → PyInt.ascii_int s = Some n → int s = Some n
}.

(** ** The paginator ([django.core.paginator.Paginator])

    The views build [Paginator(post_list, 10)] with the defaults
    [orphans = 0] and [allow_empty_first_page = True], and call
    [get_page]. *)

Module Paginator.

Inductive error := PageNotAnInteger | EmptyPage.

Section Paginator.
Context {A : Type} `{PythonInt}.

Record t := Build {
  object_list : list A;
  per_page : Z;
  orphans : Z;
  allow_empty_first_page : bool
}.

Record Page := BuildPage {
  page_object_list : list A;
  number : Z;
  paginator : t
}.

Definition count (p : t) : Z := Z.of_nat (length (object_list p)).

(** [ceil(hits / per_page)] *)
Definition ceil_div (a b : Z) : Z := - ((- a) / b).

Definition num_pages (p : t) : Z :=
  if (count p =? 0) && negb (allow_empty_first_page p) then 0
  else ceil_div (Z.max 1 (count p - orphans p)) (per_page p).

(** The page number as the view passes it: [None] or the string of the
    query parameter. *)
Definition validate_number (p : t) (number : option string) : error + Z :=
  match number ≫= int with
  | None => inl PageNotAnInteger
  | Some n =>
      if n <? 1 then inl EmptyPage
      else if (num_pages p <? n) && negb ((n =? 1) && allow_empty_first_page p)
           then inl EmptyPage
           else inr n
  end.

(** [validate_number] on a number that is an [int] already, as [page]
    calls it. *)
Definition validate_int (p : t) (n : Z) : error + Z :=
  if n <? 1 then inl EmptyPage
  else if (num_pages p <? n) && negb ((n =? 1) && allow_empty_first_page p)
       then inl EmptyPage
       else inr n.

(** [object_list[bottom:top]] for indices that are not negative. *)
Definition slice (l : list A) (bottom top : Z) : list A :=
  take (Z.to_nat (top - bottom)) (drop (Z.to_nat bottom) l).

Definition page (p : t) (n : Z) : error + Page :=
  match validate_int p n with
  | inl e => inl e
  | inr n =>
      let bottom := (n - 1) * per_page p in
      let top := bottom + per_page p in
      let top := if count p <=? top + orphans p then count p else top in
      inr (BuildPage (slice (object_list p) bottom top) n p)
  end.

Definition get_page (p : t) (number : option string) : error + Page :=
  match validate_number p number with
  | inr n => page p n
  | inl PageNotAnInteger => page p 1
  | inl EmptyPage => page p (num_pages p)
  end.

Definition has_next (pg : Page) : bool := number pg <? num_pages (paginator pg).
Definition has_previous (pg : Page) : bool := 1 <? number pg.

End Paginator.

Arguments t : clear implicits.
Arguments Page : clear implicits.

(** [Paginator(object_list, per_page)] *)
Definition make {A} (l : list A) (per_page : Z) : t A := Build l per_page 0 true.

End Paginator.

(** ** The data model ([posts/models.py])

    A model instance and its row are one record; an instance that has not
    been saved has no primary key yet. *)

(** Modelled from the spec: the [User] entity of [posts/models.py], the
    user of the authentication framework, with its key and its unique
    [username]. *)
Module User.
Record t := Build { pk : nat; username : string }.
End User.

(** Modelled from the spec: the [Group] entity of [posts/models.py]. *)
Module Group.
Record t := Build { pk : nat; title : string; slug : string; description : string }.
End Group.

(** An uploaded file ([request.FILES] values). *)
Record UploadedFile := { file_name : string; content_type : string; content : string }.

(** Modelled from the spec: the [Post] entity of [posts/models.py]: text,
    creation time, author, optional group and optional image (the name of
    the stored file). *)
Module Post.
Record t := Build {
  pk : option nat;
  text : string;
  pub_date : Z;
  author : option nat;
  group : option nat;
  image : option string
}.
Definition set_pk (k : nat) (p : t) : t :=
  Build (Some k) (text p) (pub_date p) (author p) (group p) (image p).
Definition set_author (u : User.t) (p : t) : t :=
  Build (pk p) (text p) (pub_date p) (Some (User.pk u)) (group p) (image p).
Definition set_pub_date (d : Z) (p : t) : t :=
  Build (pk p) (text p) d (author p) (group p) (image p).
End Post.

(** Modelled from the spec: the [Comment] entity of [posts/models.py]. *)
Module Comment.
Record t := Build {
  pk : option nat;
  post : option nat;
  author : option nat;
  text : string;
  created : Z
}.
Definition set_pk (k : nat) (c : t) : t :=
  Build (Some k) (post c) (author c) (text c) (created c).
Definition set_author (u : User.t) (c : t) : t :=
  Build (pk c) (post c) (Some (User.pk u)) (text c) (created c).
Definition set_post (p : Post.t) (c : t) : t :=
  Build (pk c) (Post.pk p) (author c) (text c) (created c).
Definition set_created (d : Z) (c : t) : t :=
  Build (pk c) (post c) (author c) (text c) d.
End Comment.

(** Modelled from the spec: the [Follow] entity of [posts/models.py], a
    pair of a user and the author they follow.  No uniqueness is assumed
    of the table: the properties below get it from the handlers. *)
Module Follow.
Record t := Build { pk : nat; user : nat; author : nat }.
End Follow.

(** The tables, and the next primary key of each table that the handlers
    insert into. *)
Record DB := {
  users : list User.t;
  groups : list Group.t;
  posts : list Post.t;
  comments : list Comment.t;
  follows : list Follow.t;
  post_seq : nat;
  comment_seq : nat;
  follow_seq : nat
}.

Definition set_posts (l : list Post.t) (seq : nat) (d : DB) : DB :=
  {| users := users d; groups := groups d; posts := l; comments := comments d;
     follows := follows d; post_seq := seq; comment_seq := comment_seq d;
     follow_seq := follow_seq d |}.

Definition set_comments (l : list Comment.t) (seq : nat) (d : DB) : DB :=
  {| users := users d; groups := groups d; posts := posts d; comments := l;
     follows := follows d; post_seq := post_seq d; comment_seq := seq;
     follow_seq := follow_seq d |}.

Definition set_follows (l : list Follow.t) (seq : nat) (d : DB) : DB :=
  {| users := users d; groups := groups d; posts := posts d; comments := comments d;
     follows := l; post_seq := post_seq d; comment_seq := comment_seq d;
     follow_seq := seq |}.

(** ** Requests and responses *)

(** A request as the views and their decorators read it: [scheme] and
    [host] are [request.scheme] and [get_host()], [full_path] is
    [get_full_path()], the path with its query string; [user] is [None] for
    the anonymous user; [GET], [POST] and [FILES] are the dictionaries of
    the request. *)
Record Request := {
  method : string;
  scheme : string;
  host : string;
  path : string;
  full_path : string;
  user : option User.t;
  GET : gmap string string;
  POST : gmap string string;
  FILES : gmap string UploadedFile
}.

(** [request.build_absolute_uri()]: scheme, host and full path. *)
Definition build_absolute_uri (r : Request) : string :=
  scheme r +:+ "://" +:+ host r +:+ full_path r.

(** [x or None] for a [QueryDict] or a [MultiValueDict]: an empty one is
    falsy. *)
Definition or_None {V} (m : gmap string V) : option (gmap string V) :=
  if decide (m = ∅) then None else Some m.

(** Model forms ([django.forms.ModelForm]).  [is_bound] is
    [data is not None or files is not None]; [errors] is [None] until the
    form has been cleaned, then the names of the fields in error. *)
Module Form.
Record t (I : Type) := Build {
  data : option (gmap string string);
  files : option (gmap string UploadedFile);
  instance : I;
  errors : option (list string)
}.
Arguments Build {I}.
Arguments data {I}.
Arguments files {I}.
Arguments instance {I}.
Arguments errors {I}.
Definition is_bound {I} (f : t I) : bool :=
  bool_decide (data f ≠ None) || bool_decide (files f ≠ None).
Definition set_instance {I} (i : I) (f : t I) : t I :=
  Build (data f) (files f) i (errors f).
Definition set_errors {I} (e : list string) (f : t I) : t I :=
  Build (data f) (files f) (instance f) (Some e).
Definition field_errors {A} (name : string) (cleaned : option A) : list string :=
  match cleaned with
  | Some _ => []
  | None => [name]
  end.
End Form.

(** Modelled from the spec: the named routes of the URL configuration, as
    [redirect] resolves them, and the login route of [login_required]. *)
Inductive Route :=
| RIndex
| RProfile (username : string)
| RPostView (username : string) (post_id : nat)
| RLogin (next : string).

(** The values of a template context. *)
Inductive Value :=
| VPage (p : Paginator.Page Post.t)
| VPaginator (p : Paginator.t Post.t)
| VPostForm (f : Form.t Post.t)
| VCommentForm (f : Form.t Comment.t)
| VPost (p : Post.t)
| VComments (l : list Comment.t)
| VUser (u : User.t)
| VGroup (g : Group.t)
| VInt (n : Z)
| VBool (b : bool)
| VStr (s : string).

Inductive Response :=
| Render (template : string) (context : gmap string Value) (status : Z)
| Redirect (to : Route).

Definition status_code (r : Response) : Z :=
  match r with
  | Render _ _ status => status
  | Redirect _ => 302
  end.

(** ** The state of the server and the monad of the handlers

    Besides the tables, the state holds the page cache, the wall clock as
    the current request reads it, and the number of querysets and writes
    that the handlers have had the data store evaluate so far.  The count
    is by queryset, not by statement: for a list under a paginator the
    store receives a [COUNT] and, when the page is rendered, a [SELECT],
    which are one queryset here.  A request that leaves the count as it is
    has sent the store nothing; one that raises it has sent it
    something. *)

(** A cache key: key prefix, method and URL. *)
Definition CacheKey : Type := string * string * string.

(** A cached response and the time at which it expires. *)
Record CacheEntry := { expires : Z; cached : Response }.

Record World := {
  db : DB;
  cache : gmap CacheKey CacheEntry;
  clock : Z;
  queries : nat
}.

(** The exceptions that leave a view. *)
Inductive exn :=
| Http404
| MultipleObjectsReturned
| IntegrityError
| ValueError
| PageError (e : Paginator.error).

Definition M (A : Type) : Type := World → (exn + A) * World.

Global Instance M_ret : MRet M := λ A x w, (inr x, w).
Global Instance M_bind : MBind M := λ A B f m w,
  match m w with
  | (inr x, w') => f x w'
  | (inl e, w') => (inl e, w')
  end.

Definition raise {A} (e : exn) : M A := λ w, (inl e, w).

(** One more queryset evaluated. *)
Definition tick (w : World) : World :=
  {| db := db w; cache := cache w; clock := clock w; queries := S (queries w) |}.

(** A read of the data store: a queryset evaluated. *)
Definition query {A} (f : DB → A) : M A := λ w, (inr (f (db w)), tick w).

(** A write to the data store, with what the store returns (the key of
    an inserted row). *)
Definition execute {A} (f : DB → A * DB) : M A := λ w,
  (inr (f (db w)).1,
   {| db := (f (db w)).2; cache := cache w; clock := clock w;
      queries := S (queries w) |}).

Definition now : M Z := λ w, (inr (clock w), w).

(** [cache.get(key)]: the entry of the key, unless it has expired. *)
Definition cache_get (k : CacheKey) : M (option Response) := λ w,
  (inr (match cache w !! k with
        | Some e => if clock w <? expires e then Some (cached e) else None
        | None => None
        end), w).

(** [cache.set(key, response, timeout)] *)
Definition cache_set (k : CacheKey) (r : Response) (timeout : Z) : M unit := λ w,
  (inr (),
   {| db := db w;
      cache := <[k := {| expires := clock w + timeout; cached := r |}]> (cache w);
      clock := clock w; queries := queries w |}).

Definition View : Type := Request → M Response.

Definition render (template : string) (context : gmap string Value) : M Response :=
  mret (Render template context 200).

Definition redirect (to : Route) : M Response := mret (Redirect to).

(** ** The object-relational mapper, as the views use it *)

(** [get_object_or_404(Model, **lookup)]: the rows that match; none is
    [Http404], several are [MultipleObjectsReturned]. *)
Definition get_object_or_404 {A} (matching : DB → list A) : M A :=
  rows ← query matching;
  match rows with
  | [] => raise Http404
  | [x] => mret x
  | _ => raise MultipleObjectsReturned
  end.

(** Modelled from the spec: the default ordering of [Post], declared in
    [posts/models.py], is newest first.  Posts of one and the same date
    keep the order of the table. *)
Definition newer (p q : Post.t) : Prop := Post.pub_date q ≤ Post.pub_date p.

Global Instance newer_dec p q : Decision (newer p q) :=
  Z_le_dec (Post.pub_date q) (Post.pub_date p).

Fixpoint insert_newer (p : Post.t) (l : list Post.t) : list Post.t :=
  match l with
  | [] => [p]
  | q :: l' => if decide (newer p q) then p :: l else q :: insert_newer p l'
  end.

Definition newest_first (l : list Post.t) : list Post.t := foldr insert_newer [] l.

(** [User] by [username]. *)
Definition user_by_username (username : string) (d : DB) : list User.t :=
  filter (λ u, User.username u = username) (users d).

(** [Group] by [slug]. *)
Definition group_by_slug (slug : string) (d : DB) : list Group.t :=
  filter (λ g, Group.slug g = slug) (groups d).

(** [Post] by [pk] and [author__username].  The key of the URL is a
    number of any size; the key column of the store holds 64 bits with
    sign, and what the store answers to a larger number is left to the
    backend, so the properties of a lookup that finds nothing are stated
    for keys up to [max_key]. *)
Definition max_key : Z := 2 ^ 63 - 1.

Definition authored_by (username : string) (d : DB) (p : Post.t) : Prop :=
  Exists (λ u, Post.author p = Some (User.pk u) ∧ User.username u = username) (users d).

Global Instance authored_by_dec username d p : Decision (authored_by username d p) :=
  Exists_dec _ (users d).

Definition post_by_pk_author (post_id : nat) (username : string) (d : DB) : list Post.t :=
  filter (λ p, Post.pk p = Some post_id ∧ authored_by username d p) (posts d).

(** [author.author_posts]: the posts of a user. *)
Definition author_posts (author : User.t) (d : DB) : list Post.t :=
  filter (λ p, Post.author p = Some (User.pk author)) (posts d).

(** [group.posts]: the posts of a group. *)
Definition group_posts_of (group : Group.t) (d : DB) : list Post.t :=
  filter (λ p, Post.group p = Some (Group.pk group)) (posts d).

(** [post.comments]: the comments of a post, in the order of the table. *)
Definition post_comments (post : Post.t) (d : DB) : list Comment.t :=
  filter (λ c, Comment.post c = Post.pk post) (comments d).

(** [Follow.objects.filter(user=user, author=author)] *)
Definition follow_rows (user author : User.t) (d : DB) : list Follow.t :=
  filter (λ f, Follow.user f = User.pk user ∧ Follow.author f = User.pk author) (follows d).

(** [Post.objects.filter(author__following__user=user)]: the join of the
    posts with the [Follow] rows of their author, one result per pair. *)
Definition followed_posts (user : User.t) (d : DB) : list Post.t :=
  p ← posts d;
  f ← filter (λ f, Some (Follow.author f) = Post.author p ∧ Follow.user f = User.pk user)
             (follows d);
  [p].

(** [Model.save()]: an instance without a primary key is inserted under the
    next key of its table, one with a key replaces the row of that key. *)
Definition replace_row {A} (same : A → bool) (x : A) (l : list A) : list A :=
  if existsb same l then map (λ y, if same y then x else y) l else l ++ [x].

Definition save_post (p : Post.t) : M Post.t :=
  match Post.author p with
  | None => raise IntegrityError
  | Some _ =>
      match Post.pk p with
      | None =>
          t ← now;
          execute (λ d,
            let p := Post.set_pub_date t (Post.set_pk (post_seq d) p) in
            (p, set_posts (posts d ++ [p]) (S (post_seq d)) d))
      | Some k =>
          execute (λ d,
            (p, set_posts (replace_row (λ q, bool_decide (Post.pk q = Some k)) p (posts d))
                          (post_seq d) d))
      end
  end.

Definition save_comment (c : Comment.t) : M Comment.t :=
  match Comment.author c, Comment.post c with
  | Some _, Some _ =>
      match Comment.pk c with
      | None =>
          t ← now;
          execute (λ d,
            let c := Comment.set_created t (Comment.set_pk (comment_seq d) c) in
            (c, set_comments (comments d ++ [c]) (S (comment_seq d)) d))
      | Some k =>
          execute (λ d,
            (c, set_comments
                  (replace_row (λ q, bool_decide (Comment.pk q = Some k)) c (comments d))
                  (comment_seq d) d))
      end
  | _, _ => raise IntegrityError
  end.

(** [Follow.objects.create(user=user, author=author)] *)
Definition create_follow (user author : User.t) : M Follow.t :=
  execute (λ d,
    let f := Follow.Build (follow_seq d) (User.pk user) (User.pk author) in
    (f, set_follows (follows d ++ [f]) (S (follow_seq d)) d)).

(** [Follow.objects.filter(user=user, author=author).delete()] *)
Definition delete_follows (user author : User.t) : M unit :=
  execute (λ d,
    ((), set_follows
           (filter (λ f, ¬ (Follow.user f = User.pk user ∧ Follow.author f = User.pk author))
                   (follows d))
           (follow_seq d) d)).

(** ** The forms ([posts/forms.py]) *)

(** The image decoder behind the image field of [PostForm]. *)
Class ImageDecoder := decodes_as_image : UploadedFile → bool.

(** The storage behind the image field of [Post]: the name under which an
    uploaded file is stored. *)
Class Storage := stored_name : UploadedFile → string.

(** [str.lower()] on ASCII. *)
Definition lower_ascii (c : ascii) : ascii :=
  let n := nat_of_ascii c in
  if ((65 <=? n) && (n <=? 90))%nat then ascii_of_nat (n + 32) else c.

Fixpoint lower (s : string) : string :=
  match s with
  | EmptyString => EmptyString
  | String c s' => String (lower_ascii c) (lower s')
  end.

(** [CheckboxInput.value_from_datadict]: a box is checked when its name is
    in the data with a value other than the empty string and [false]. *)
Definition checkbox (data : gmap string string) (name : string) : bool :=
  match data !! name with
  | None => false
  | Some value =>
      negb (bool_decide (value = "")) && negb (bool_decide (lower value = "false"))
  end.

Module PostForm.

Definition blank : Post.t := Post.Build None "" 0 None None None.

(** [PostForm(data, files=files, instance=instance)] *)
Definition init (data : option (gmap string string))
    (files : option (gmap string UploadedFile)) (instance : option Post.t)
    : Form.t Post.t :=
  Form.Build data files (default blank instance) None.

(** Modelled from the spec: [text] is required and not empty. *)
Definition clean_text (data : gmap string string) : option string :=
  match data !! "text" with
  | Some s => if decide (s = "") then None else Some s
  | None => None
  end.

(** Modelled from the spec: [group] is optional and, when given, is the
    key of an existing [Group]. *)
Definition clean_group `{PythonInt} (data : gmap string string)
    : M (option (option nat)) :=
  match data !! "group" with
  | None => mret (Some None)
  | Some s =>
      if decide (s = "") then mret (Some None)
      else
        match int s with
        | Some k =>
            found ← query (λ d, filter (λ g, Z.of_nat (Group.pk g) = k) (groups d));
            match found with
            | g :: _ => mret (Some (Some (Group.pk g)))
            | [] => mret None
            end
        | None => mret None
        end
  end.

(** Modelled from the spec: [image] is optional and, when a file is
    uploaded, the file must decode as an image.  The rest is the file
    field of [django.forms] for a field that is not required: its widget
    has the box [image-clear]; the box together with an upload is an
    error, the box alone empties the image, and with neither the image of
    the instance is left as it is.  An accepted upload is stored under the
    name that the storage gives it. *)
Definition clean_image `{ImageDecoder} `{Storage} (data : gmap string string)
    (files : gmap string UploadedFile) (initial : option string)
    : option (option string) :=
  match files !! "image" with
  | Some f =>
      if checkbox data "image-clear" then None
      else if decodes_as_image f then Some (Some (stored_name f)) else None
  | None => if checkbox data "image-clear" then Some None else Some initial
  end.

Definition construct_instance (text : string) (group : option nat)
    (image : option string) (i : Post.t) : Post.t :=
  Post.Build (Post.pk i) text (Post.pub_date i) (Post.author i) group image.

(** [form.is_valid()]: cleans a bound form, which also writes the cleaned
    fields to the instance of the form.  The form is returned as the call
    leaves it. *)
Definition is_valid `{ImageDecoder} `{Storage} `{PythonInt} (form : Form.t Post.t)
    : M (bool * Form.t Post.t) :=
  if Form.is_bound form then
    let data := default ∅ (Form.data form) in
    let files := default ∅ (Form.files form) in
    let text := clean_text data in
    let image := clean_image data files (Post.image (Form.instance form)) in
    group ← clean_group data;
    match text, group, image with
    | Some t, Some g, Some i =>
        mret (true,
              Form.set_errors []
                (Form.set_instance (construct_instance t g i (Form.instance form)) form))
    | _, _, _ =>
        mret (false,
              Form.set_errors (Form.field_errors "text" text ++
                               Form.field_errors "group" group ++
                               Form.field_errors "image" image) form)
    end
  else mret (false, form).

(** [form.save(commit)] *)
Definition save (commit : bool) (form : Form.t Post.t) : M Post.t :=
  match Form.errors form with
  | Some [] => if commit then save_post (Form.instance form) else mret (Form.instance form)
  | _ => raise ValueError
  end.

End PostForm.

Module CommentForm.

Definition blank : Comment.t := Comment.Build None None None "" 0.

(** [CommentForm(data)] *)
Definition init (data : option (gmap string string)) : Form.t Comment.t :=
  Form.Build data None blank None.

(** Modelled from the spec: the only field of the form is [text], which is
    required and not empty. *)
Definition clean_text (data : gmap string string) : option string :=
  match data !! "text" with
  | Some s => if decide (s = "") then None else Some s
  | None => None
  end.

Definition construct_instance (text : string) (i : Comment.t) : Comment.t :=
  Comment.Build (Comment.pk i) (Comment.post i) (Comment.author i) text (Comment.created i).

Definition is_valid (form : Form.t Comment.t) : M (bool * Form.t Comment.t) :=
  if Form.is_bound form then
    let text := clean_text (default ∅ (Form.data form)) in
    match text with
    | Some t =>
        mret (true,
              Form.set_errors []
                (Form.set_instance (construct_instance t (Form.instance form)) form))
    | None => mret (false, Form.set_errors (Form.field_errors "text" text) form)
    end
  else mret (false, form).

Definition save (commit : bool) (form : Form.t Comment.t) : M Comment.t :=
  match Form.errors form with
  | Some [] =>
      if commit then save_comment (Form.instance form) else mret (Form.instance form)
  | _ => raise ValueError
  end.

End CommentForm.

(** ** The decorators *)

(** [@login_required]: an anonymous request is redirected to the login
    route, [next] being the full path of the request; otherwise the view
    runs, [request.user] being the authenticated user. *)
Definition login_required (view : User.t → View) : View := λ request,
  match user request with
  | Some u => view u request
  | None => redirect (RLogin (full_path request))
  end.

(** The cache key of a request: the key prefix, the method and the URL of
    the request, [build_absolute_uri()].  (Django keeps a hash of the URL,
    and adds the values of the request headers that the cached response
    names in its [Vary] header; the response that [render] returns names
    none.) *)
Definition cache_key (key_prefix method : string) (request : Request) : CacheKey :=
  (key_prefix, method, build_absolute_uri request).

(** [@cache_page(timeout, key_prefix=key_prefix)]: a [GET] or [HEAD] request
    is answered from the cache when the cache holds a response for its key
    that has not expired; otherwise the view runs and a response of status
    200 is stored for [timeout] seconds, counted from that moment.  A hit
    stores nothing. *)
Definition cache_page (timeout : Z) (key_prefix : string) (view : View) : View := λ request,
  if bool_decide (method request = "GET" ∨ method request = "HEAD") then
    hit ← cache_get (cache_key key_prefix "GET" request);
    hit ← match hit with
          | None =>
              if bool_decide (method request = "HEAD")
              then cache_get (cache_key key_prefix "HEAD" request)
              else mret None
          | Some r => mret (Some r)
          end;
    match hit with
    | Some response => mret response
    | None =>
        response ← view request;
        if status_code response =? 200 then
          _ ← cache_set (cache_key key_prefix (method request) request) response timeout;
          mret response
        else mret response
    end
  else view request.

(** [paginator.get_page(page_number)] *)
Definition get_page `{PythonInt} (paginator : Paginator.t Post.t)
    (page_number : option string) : M (Paginator.Page Post.t) :=
  match Paginator.get_page paginator page_number with
  | inr page => mret page
  | inl e => raise (PageError e)
  end.

(** ** The views ([posts/views.py]) *)

Section Views.
Context `{ImageDecoder} `{Storage} `{PythonInt}.

(** The body of [index], under its decorator. *)
Definition index_uncached : View := λ request,
  post_list ← query (λ d, newest_first (posts d));
  let paginator := Paginator.make post_list 10 in
  let page_number := GET request !! "page" in
  page ← get_page paginator page_number;
  render "index.html" {[ "page" := VPage page; "paginator" := VPaginator paginator ]}.

Definition index : View := cache_page 20 "index_page" index_uncached.

Definition group_posts (slug : string) : View := λ request,
  group ← get_object_or_404 (group_by_slug slug);
  posts ← query (λ d, newest_first (group_posts_of group d));
  let paginator := Paginator.make posts 10 in
  let page_number := GET request !! "page" in
  page ← get_page paginator page_number;
  render "group.html"
    {[ "group" := VGroup group; "page" := VPage page;
       "paginator" := VPaginator paginator ]}.

Definition new_post : View := login_required (λ request_user request,
  let form := PostForm.init (or_None (POST request)) None None in
  '(valid, form) ← PostForm.is_valid form;
  if negb valid then
    render "posts/new_post.html" {[ "form" := VPostForm form; "is_edit" := VBool false ]}
  else
    post ← PostForm.save false form;
    let post := Post.set_author request_user post in
    _ ← save_post post;
    redirect RIndex).

Definition profile (username : string) : View := λ request,
  author ← get_object_or_404 (user_by_username username);
  following ← match user request with
              | Some request_user =>
                  rows ← query (follow_rows request_user author);
                  mret (bool_decide (rows ≠ []))
              | None => mret false
              end;
  post_list ← query (λ d, newest_first (author_posts author d));
  let count_posts := Z.of_nat (length post_list) in
  let paginator := Paginator.make post_list 10 in
  let page_number := GET request !! "page" in
  page ← get_page paginator page_number;
  render "profile.html"
    {[ "author" := VUser author; "page" := VPage page;
       "paginator" := VPaginator paginator; "count_posts" := VInt count_posts;
       "profile" := VUser author; "following" := VBool following ]}.

Definition post_view (username : string) (post_id : nat) : View := λ request,
  author ← get_object_or_404 (user_by_username username);
  post ← get_object_or_404 (post_by_pk_author post_id username);
  count_posts ← query (λ d, Z.of_nat (length (author_posts author d)));
  let form := CommentForm.init (Some (POST request)) in
  comments ← query (post_comments post);
  render "post_view.html"
    {[ "author" := VUser author; "username" := VStr username; "post" := VPost post;
       "count_posts" := VInt count_posts; "form" := VCommentForm form;
       "comments" := VComments comments ]}.

Definition post_edit (username : string) (post_id : nat) : View :=
  login_required (λ request_user request,
    post ← get_object_or_404 (post_by_pk_author post_id username);
    if bool_decide (Some (User.pk request_user) ≠ Post.author post) then
      redirect (RPostView username post_id)
    else
      let form :=
        PostForm.init (or_None (POST request)) (or_None (FILES request)) (Some post) in
      '(valid, form) ← PostForm.is_valid form;
      if negb valid then
        render "posts/new_post.html"
          {[ "form" := VPostForm form; "post" := VPost (Form.instance form);
             "is_edit" := VBool true ]}
      else
        _ ← PostForm.save true form;
        redirect (RPostView username post_id)).

Definition add_comment (username : string) (post_id : nat) : View :=
  login_required (λ request_user request,
    post ← get_object_or_404 (post_by_pk_author post_id username);
    let form := CommentForm.init (or_None (POST request)) in
    '(valid, form) ← CommentForm.is_valid form;
    if negb valid then
      render "includes/comments.html" {[ "form" := VCommentForm form; "post" := VPost post ]}
    else
      comment ← CommentForm.save false form;
      let comment := Comment.set_author request_user comment in
      let comment := Comment.set_post post comment in
      (* [comment] is the instance of the form: the form sees the two
         assignments *)
      let form := Form.set_instance comment form in
      _ ← CommentForm.save true form;
      redirect (RPostView username post_id)).

Definition follow_index : View := login_required (λ request_user request,
  author ← get_object_or_404 (user_by_username (User.username request_user));
  post_list ← query (λ d, newest_first (followed_posts request_user d));
  let count_posts := Z.of_nat (length post_list) in
  let paginator := Paginator.make post_list 10 in
  let page_number := GET request !! "page" in
  page ← get_page paginator page_number;
  render "follow.html"
    {[ "author" := VUser author; "count_posts" := VInt count_posts;
       "page" := VPage page; "paginator" := VPaginator paginator ]}).

Definition profile_follow (username : string) : View :=
  login_required (λ request_user request,
    author ← get_object_or_404 (user_by_username username);
    rows ← query (follow_rows request_user author);
    let follow := bool_decide (rows ≠ []) in
    _ ← (if negb (bool_decide (User.pk request_user = User.pk author))
            && bool_decide (follow = false)
         then _ ← create_follow request_user author; mret ()
         else mret ());
    redirect (RProfile username)).

Definition profile_unfollow (username : string) : View :=
  login_required (λ request_user request,
    author ← get_object_or_404 (user_by_username username);
    _ ← delete_follows request_user author;
    redirect (RProfile username)).

Definition page_not_found (request : Request) : M Response :=
  mret (Render "misc/404.html" {[ "path" := VStr (path request) ]} 404).

Definition server_error (request : Request) : M Response :=
  mret (Render "misc/500.html" ∅ 500).

(** ** Dispatch

    The routes of the application, and a request served at a time of the
    wall clock: an [Http404] that leaves the view is answered by
    [page_not_found], any other exception by [server_error]. *)
Inductive Call :=
| Index
| GroupPosts (slug : string)
| NewPost
| Profile (username : string)
| PostView (username : string) (post_id : nat)
| PostEdit (username : string) (post_id : nat)
| AddComment (username : string) (post_id : nat)
| FollowIndex
| ProfileFollow (username : string)
| ProfileUnfollow (username : string).

Definition dispatch (c : Call) : View :=
  match c with
  | Index => index
  | GroupPosts slug => group_posts slug
  | NewPost => new_post
  | Profile username => profile username
  | PostView username post_id => post_view username post_id
  | PostEdit username post_id => post_edit username post_id
  | AddComment username post_id => add_comment username post_id
  | FollowIndex => follow_index
  | ProfileFollow username => profile_follow username
  | ProfileUnfollow username => profile_unfollow username
  end.

Definition at_time (t : Z) (w : World) : World :=
  {| db := db w; cache := cache w; clock := t; queries := queries w |}.

(** [handler404] and [handler500] *)
Definition handler (e : exn) : View :=
  match e with
  | Http404 => page_not_found
  | _ => server_error
  end.

Definition serve (t : Z) (c : Call) (request : Request) (w : World) : Response * World :=
  match dispatch c request (at_time t w) with
  | (inr response, w') => (response, w')
  | (inl e, w') =>
      match handler e request w' with
      | (inr response, w'') => (response, w'')
      | (inl _, w'') => (Render "misc/500.html" ∅ 500, w'')
      end
  end.

End Views.

(** ** Vocabulary of the properties *)

(** The handlers that carry [@login_required]. *)
Definition auth_required (c : Call) : bool :=
  match c with
  | NewPost | PostEdit _ _ | AddComment _ _ | FollowIndex
  | ProfileFollow _ | ProfileUnfollow _ => true
  | Index | GroupPosts _ | Profile _ | PostView _ _ => false
  end.

(** The [(user, author)] pairs of the [Follow] table. *)
Definition follow_pairs (d : DB) : list (nat * nat) :=
  (λ f, (Follow.user f, Follow.author f)) <$> follows d.

(** At most one row for each pair, and no row from a user to themselves. *)
Definition follow_invariant (d : DB) : Prop :=
  NoDup (follow_pairs d) ∧ Forall (λ f, Follow.user f ≠ Follow.author f) (follows d).

(** [user] follows the user of key [author]. *)
Definition follows_author (user : User.t) (author : nat) (d : DB) : Prop :=
  ∃ f, f ∈ follows d ∧ Follow.user f = User.pk user ∧ Follow.author f = author.

(** The requests served one after the other, each at its time. *)
Definition Event : Type := Z * Call * Request.

Definition serve_event `{ImageDecoder} `{Storage} `{PythonInt} (e : Event) (w : World)
    : World :=
  (serve e.1.1 e.1.2 e.2 w).2.

Definition run `{ImageDecoder} `{Storage} `{PythonInt} (trace : list Event) (w : World)
    : World :=
  foldl (λ w e, serve_event e w) w trace.

(** The states the handlers reach from a state without [Follow] rows. *)
Inductive reachable `{ImageDecoder} `{Storage} `{PythonInt} : World → Prop :=
| reachable_start w : follows (db w) = [] → reachable w
| reachable_serve t c request w : reachable w → reachable (serve t c request w).2.

(** The cache holds a response for the key that has not expired at [t]. *)
Definition cached_at (k : CacheKey) (t : Z) (w : World) : Prop :=
  ∃ e, cache w !! k = Some e ∧ t < expires e.

(** The page and the form of a rendered response. *)
Definition context_of (r : Response) : gmap string Value :=
  match r with
  | Render _ context _ => context
  | Redirect _ => ∅
  end.

Definition page_of (r : Response) : option (Paginator.Page Post.t) :=
  match context_of r !! "page" with
  | Some (VPage p) => Some p
  | _ => None
  end.

Definition comment_form_of (r : Response) : option (Form.t Comment.t) :=
  match context_of r !! "form" with
  | Some (VCommentForm f) => Some f
  | _ => None
  end.

(** The page that lies nearest to a requested number, in the words of the
    specification: the number clamped to the range of the pages. *)
Definition nearest_valid_page {A} (p : Paginator.t A) (n : Z) : Z :=
  Z.max 1 (Z.min n (Paginator.num_pages p)).

(** The page number that [get_page] settles on: page 1 for a number that
    is absent or not an integer, the number itself within the range of the
    pages, the last page otherwise. *)
Definition settled_number `{PythonInt} {A} (p : Paginator.t A)
    (page_number : option string) : Z :=
  match page_number ≫= int with
  | None => 1
  | Some n => if decide (1 ≤ n ≤ Paginator.num_pages p) then n else Paginator.num_pages p
  end.

(** [hoare R m Q]: whatever the state, running [m] leads to a state
    related to it by [R], and a result of [m] satisfies [Q]. *)
Definition hoare {A} (R : relation World) (m : M A) (Q : A → Prop) : Prop :=
  ∀ w, R w (m w).2 ∧ match (m w).1 with
                     | inr x => Q x
                     | inl _ => True
                     end.

(** A relation on the tables, read on states. *)
Definition on_db (R : relation DB) : relation World := λ w w', R (db w) (db w').

(** The cache after is the cache before. *)
Definition same_cache : relation World := λ w w', cache w' = cache w.

(** The relations that the logic follows through a handler: preorders that
    a query respects. *)
Class Frame (R : relation World) : Prop := {
  frame_preorder :: PreOrder R;
  frame_tick w : R w (tick w)
}.

(** [R] lets the handlers write to a table, or to the cache. *)
Definition writes_posts (R : relation World) : Prop :=
  ∀ l seq w, R w (execute (λ d, ((), set_posts l seq d)) w).2.
Definition writes_comments (R : relation World) : Prop :=
  ∀ l seq w, R w (execute (λ d, ((), set_comments l seq d)) w).2.
Definition writes_follows (R : relation World) : Prop :=
  ∀ l seq w, R w (execute (λ d, ((), set_follows l seq d)) w).2.
Definition writes_cache (R : relation World) : Prop :=
  ∀ k r timeout w, R w (cache_set k r timeout w).2.

(** The posts after are the posts before or have no image. *)
Definition image_frame : relation DB := λ d d',
  ∀ p, p ∈ posts d' → p ∈ posts d ∨ Post.image p = None.

(** The [Follow] table after is the one before. *)
Definition follows_frame : relation DB := λ d d', follows d' = follows d.

(** What [profile_follow] and [profile_unfollow] do to the tables. *)
Definition profile_follow_db (request : Request) (username : string) (d : DB) : DB :=
  match user request, user_by_username username d with
  | Some u, [author] =>
      if bool_decide (User.pk u ≠ User.pk author ∧ follow_rows u author d = [])
      then set_follows
             (follows d ++ [Follow.Build (follow_seq d) (User.pk u) (User.pk author)])
             (S (follow_seq d)) d
      else d
  | _, _ => d
  end.

Definition profile_unfollow_db (request : Request) (username : string) (d : DB) : DB :=
  match user request, user_by_username username d with
  | Some u, [author] =>
      set_follows
        (filter (λ f, ¬ (Follow.user f = User.pk u ∧ Follow.author f = User.pk author))
                (follows d))
        (follow_seq d) d
  | _, _ => d
  end.

(** The request with other uploaded files. *)
Definition with_files (files : gmap string UploadedFile) (r : Request) : Request :=
  {| method := method r; scheme := scheme r; host := host r; path := path r;
     full_path := full_path r; user := user r; GET := GET r; POST := POST r;
     FILES := files |}.

(** The handlers without a write in their source. *)
Definition read_only (c : Call) : bool :=
  match c with
  | Index | GroupPosts _ | Profile _ | PostView _ _ | FollowIndex => true
  | NewPost | PostEdit _ _ | AddComment _ _ | ProfileFollow _ | ProfileUnfollow _ => false
  end.

(** The users and the groups after are the ones before. *)
Definition users_groups_frame : relation DB := λ d d',
  users d' = users d ∧ groups d' = groups d.

(** The answer to an [Http404]: what [page_not_found] renders. *)
Definition not_found_page (request : Request) : Response :=
  Render "misc/404.html" {[ "path" := VStr (path request) ]} 404.

(** The paginator of a rendered response. *)
Definition paginator_of (r : Response) : option (Paginator.t Post.t) :=
  match context_of r !! "paginator" with
  | Some (VPaginator p) => Some p
  | _ => None
  end.

(** The key of the URL, where the route has one, lies within the keys of
    the store. *)
Definition key_in_range (c : Call) : Prop :=
  match c with
  | PostView _ post_id | PostEdit _ post_id | AddComment _ post_id =>
      Z.of_nat post_id ≤ max_key
  | _ => True
  end.

(** The request names a group, a user or a post that the tables do not
    hold, and the view gets as far as looking for it. *)
Definition target_missing (c : Call) (request : Request) (d : DB) : Prop :=
  match c with
  | Index | NewPost | FollowIndex => False
  | GroupPosts slug => group_by_slug slug d = []
  | Profile username => user_by_username username d = []
  | PostView username post_id =>
      user_by_username username d = []
      ∨ (∃ author, user_by_username username d = [author])
        ∧ post_by_pk_author post_id username d = []
  | PostEdit username post_id | AddComment username post_id =>
      user request ≠ None ∧ post_by_pk_author post_id username d = []
  | ProfileFollow username | ProfileUnfollow username =>
      user request ≠ None ∧ user_by_username username d = []
  end.

(** The items of page [n], and the pages of a paginator one after the
    other, from page 1 to the last. *)
Definition page_items {A} (p : Paginator.t A) (n : Z) : list A :=
  match Paginator.page p n with
  | inr pg => Paginator.page_object_list pg
  | inl _ => []
  end.

Definition all_pages {A} (p : Paginator.t A) : list (list A) :=
  page_items p <$> seqZ 1 (Paginator.num_pages p).

(** Every response in the cache expires by the time [T]. *)
Definition expires_by (T : Z) (w : World) : Prop :=
  ∀ k e, cache w !! k = Some e → expires e ≤ T.

(** ** Sample data

    A store with two users and a group, after the fixtures of
    [posts/tests.py], a decoder that knows the GIF signature, a storage
    that keeps the name of the upload under [posts/], and the reader of
    ASCII numbers. *)
Module Sample.

Definition gif_decoder : ImageDecoder := λ f, String.prefix "GIF8" (content f).

Definition media_storage : Storage := λ f, "posts/" +:+ file_name f.

Definition ascii_int : PythonInt :=
  {| int := PyInt.ascii_int; int_ascii := λ s n _ Hs, Hs |}.

Definition test_user : User.t := User.Build 1 "test_user".
Definition follower : User.t := User.Build 2 "follower".
Definition test_group : Group.t :=
  Group.Build 1 "test group" "test_group" "test description".

Definition post_number (k : nat) : Post.t :=
  Post.Build (Some k) "Text test!" (Z.of_nat k) (Some 1%nat) (Some 1%nat) None.

Definition store (n : nat) : DB :=
  {| users := [test_user; follower]; groups := [test_group];
     posts := post_number <$> seq 1 n; comments := []; follows := [];
     post_seq := S n; comment_seq := 1; follow_seq := 1 |}.

Definition world (n : nat) : World :=
  {| db := store n; cache := ∅; clock := 0; queries := 0 |}.

(** The query string of the parameters of a request. *)
Definition query_string (GET : gmap string string) : string :=
  match map_to_list GET with
  | [] => ""
  | l => "?" +:+ String.concat "&" ((λ kv, kv.1 +:+ "=" +:+ kv.2) <$> l)
  end.

(** A request as the test client sends it. *)
Definition request (method path : string) (user : option User.t)
    (GET POST : gmap string string) (FILES : gmap string UploadedFile) : Request :=
  {| method := method; scheme := "http"; host := "testserver"; path := path;
     full_path := path +:+ query_string GET;
     user := user; GET := GET; POST := POST; FILES := FILES |}.

Definition get (path : string) (user : option User.t) : Request :=
  request "GET" path user ∅ ∅ ∅.

Definition urls_py : UploadedFile :=
  {| file_name := "urls.py"; content_type := "text/x-python";
     content := "from django.urls import path" |}.

Definition foo_image : UploadedFile :=
  {| file_name := "foo_image.gif"; content_type := "image/gif";
     content := "GIF87a" |}.

End Sample.

(** The queries stay folded in the proofs. *)
Arguments newest_first : simpl never.
Arguments user_by_username : simpl never.
Arguments group_by_slug : simpl never.
Arguments post_by_pk_author : simpl never.
Arguments author_posts : simpl never.
Arguments post_comments : simpl never.
Arguments follow_rows : simpl never.
Arguments followed_posts : simpl never.

(** * Properties *)

(** ** The paginator *)

Section PaginatorFacts.
Context {A : Type} `{PythonInt}.
Implicit Types (l : list A) (n : Z).

Lemma num_pages_make l :
  Paginator.num_pages (Paginator.make l 10)
  = Paginator.ceil_div (Z.max 1 (Z.of_nat (length l))) 10.
Proof.
  unfold Paginator.num_pages, Paginator.make, Paginator.count. simpl.
  rewrite andb_false_r. f_equal. f_equal. lia.
Qed.

Lemma num_pages_positive l : 1 ≤ Paginator.num_pages (Paginator.make l 10).
Proof.
  rewrite num_pages_make. unfold Paginator.ceil_div.
  pose proof (Z.div_lt_upper_bound (- Z.max 1 (Z.of_nat (length l))) 10 0).
  lia.
Qed.

(** The pages cover the list: [10 * (num_pages - 1) < max 1 count <= 10 * num_pages]. *)
Lemma num_pages_bounds l :
  let m := Paginator.num_pages (Paginator.make l 10) in
  10 * (m - 1) < Z.max 1 (Z.of_nat (length l)) ≤ 10 * m.
Proof.
  intros m. subst m. rewrite num_pages_make. unfold Paginator.ceil_div.
  pose proof (Z.div_mod (- Z.max 1 (Z.of_nat (length l))) 10).
  pose proof (Z.mod_pos_bound (- Z.max 1 (Z.of_nat (length l))) 10).
  lia.
Qed.

Lemma validate_int_in_range l n :
  1 ≤ n ≤ Paginator.num_pages (Paginator.make l 10) →
  Paginator.validate_int (Paginator.make l 10) n = inr n.
Proof.
  intros Hn. unfold Paginator.validate_int.
  destruct (Z.ltb_spec n 1); [lia|].
  destruct (Z.ltb_spec (Paginator.num_pages (Paginator.make l 10)) n); [lia|done].
Qed.

(** A page is the ten items from its offset on. *)
Lemma slice_page l n :
  1 ≤ n →
  let bottom := (n - 1) * 10 in
  let top := bottom + 10 in
  Paginator.slice l bottom
    (if Z.of_nat (length l) <=? top + 0 then Z.of_nat (length l) else top)
  = take 10 (drop (Z.to_nat ((n - 1) * 10)) l).
Proof.
  intros Hn bottom top. unfold Paginator.slice.
  destruct (Z.leb_spec (Z.of_nat (length l)) (top + 0)).
  - rewrite !take_ge; [done| |]; rewrite length_drop; subst top bottom; lia.
  - f_equal. subst top. lia.
Qed.

Lemma page_in_range l n :
  1 ≤ n ≤ Paginator.num_pages (Paginator.make l 10) →
  Paginator.page (Paginator.make l 10) n
  = inr (Paginator.BuildPage (take 10 (drop (Z.to_nat ((n - 1) * 10)) l)) n
           (Paginator.make l 10)).
Proof.
  intros Hn. unfold Paginator.page. rewrite validate_int_in_range by done.
  cbn [Paginator.per_page Paginator.orphans Paginator.make Paginator.object_list
       Paginator.count].
  rewrite slice_page by lia. done.
Qed.

Lemma get_page_settles l (page_number : option string) :
  let p := Paginator.make l 10 in
  Paginator.get_page p page_number
  = Paginator.page p (settled_number p page_number).
Proof.
  intros p. unfold Paginator.get_page, Paginator.validate_number, settled_number.
  destruct (page_number ≫= int) as [n|]; [|done].
  pose proof (num_pages_positive l) as Hpos. fold p in Hpos.
  cbn [Paginator.allow_empty_first_page p Paginator.make].
  destruct (Z.ltb_spec n 1).
  { rewrite decide_False by lia. done. }
  destruct (Z.ltb_spec (Paginator.num_pages p) n); simpl.
  - destruct (Z.eqb_spec n 1); [lia|]. simpl. rewrite decide_False by lia. done.
  - rewrite decide_True by lia. done.
Qed.

Lemma settled_number_in_range l (page_number : option string) :
  let p := Paginator.make l 10 in
  1 ≤ settled_number p page_number ≤ Paginator.num_pages p.
Proof.
  intros p. pose proof (num_pages_positive l) as Hpos. fold p in Hpos.
  unfold settled_number. destruct (page_number ≫= int) as [n|]; [|lia].
  case_decide; lia.
Qed.

(** For a page number in ASCII digits the page is the same under every
    interpreter: the number itself within the pages, the last page
    otherwise. *)
Lemma settled_number_ascii l (s : string) n :
  (String.length s ≤ 4300)%nat →
  PyInt.ascii_int s = Some n →
  let p := Paginator.make l 10 in
  settled_number p (Some s)
  = if decide (1 ≤ n ≤ Paginator.num_pages p) then n else Paginator.num_pages p.
Proof.
  intros Hlength Hs p. unfold settled_number. cbn [mbind option_bind].
  by rewrite (int_ascii s n Hlength Hs).
Qed.

(** C6 (amended): [Paginator(l, 10).get_page] always returns a page; the
    page holds at most 10 items, the ten items from its offset on; its
    number is the one of [settled_number]: 1 for a page number that is
    absent or that [int] does not read as an integer, the requested
    number when that lies within the pages, and the last page for every
    other number, above the last page or below 1.  This holds whatever
    strings the [int] of the interpreter reads. *)
Theorem get_page_slice_and_fallback l (page_number : option string) :
  let p := Paginator.make l 10 in
  ∃ pg, Paginator.get_page p page_number = inr pg
    ∧ (length (Paginator.page_object_list pg) ≤ 10)%nat
    ∧ Paginator.page_object_list pg
      = take 10 (drop (Z.to_nat ((Paginator.number pg - 1) * 10)) l)
    ∧ 1 ≤ Paginator.number pg ≤ Paginator.num_pages p
    ∧ Paginator.number pg = settled_number p page_number.
Proof.
  intros p. subst p. rewrite get_page_settles.
  pose proof (settled_number_in_range l page_number) as Hrange.
  set (p := Paginator.make l 10) in *. cbv zeta in Hrange.
  unfold p at 1. rewrite page_in_range by exact Hrange.
  eexists. split; [reflexivity|]. cbn [Paginator.page_object_list Paginator.number].
  split; [rewrite length_take; lia|]. done.
Qed.
End PaginatorFacts.

(** ** The monad of the handlers *)

Section Monad.
Context {A B : Type}.
Implicit Types (w : World) (k : A → M B).

Lemma bind_unfold (m : M A) k w :
  (m ≫= k) w = match m w with
               | (inr x, w') => k x w'
               | (inl e, w') => (inl e, w')
               end.
Proof. reflexivity. Qed.

Lemma bind_ret (x : A) k w : (mret x ≫= k) w = k x w.
Proof. reflexivity. Qed.

Lemma bind_raise e k w : (raise e ≫= k) w = (inl e, w).
Proof. reflexivity. Qed.

Lemma bind_query (f : DB → A) k w : (query f ≫= k) w = k (f (db w)) (tick w).
Proof. reflexivity. Qed.
End Monad.

Lemma bind_get_object_cases {A B} (matching : DB → list A) (k : A → M B) w :
  (get_object_or_404 matching ≫= k) w
  = match matching (db w) with
    | [] => (inl Http404, tick w)
    | [x] => k x (tick w)
    | _ => (inl MultipleObjectsReturned, tick w)
    end.
Proof.
  unfold get_object_or_404. rewrite !bind_unfold. cbn [query].
  by destruct (matching (db w)) as [|x [|y l]].
Qed.

Lemma bind_get_object {A B} (matching : DB → list A) (k : A → M B) w x :
  matching (db w) = [x] →
  (get_object_or_404 matching ≫= k) w = k x (tick w).
Proof. intros Hx. unfold get_object_or_404. rewrite !bind_unfold. simpl. by rewrite Hx. Qed.

(** ** Anonymous requests *)

Section Handlers.
Context `{ImageDecoder} `{Storage} `{PythonInt}.
Implicit Types (w : World) (request : Request) (t : Z).

Lemma login_required_anonymous (view : User.t → View) request w :
  user request = None →
  login_required view request w = (inr (Redirect (RLogin (full_path request))), w).
Proof. intros Hanon. unfold login_required. by rewrite Hanon. Qed.

(** C4: an anonymous request to a handler under [@login_required] is
    answered by a redirect to the login route whose [next] is the full
    path of the request, and nothing changes in the store: the tables,
    the cache and the number of queries are the ones before. *)
Theorem anonymous_request_redirected_to_login t c request w :
  auth_required c = true →
  user request = None →
  serve t c request w = (Redirect (RLogin (full_path request)), at_time t w)
  ∧ db (serve t c request w).2 = db w
  ∧ cache (serve t c request w).2 = cache w
  ∧ queries (serve t c request w).2 = queries w.
Proof.
  intros Hauth Hanon.
  assert (serve t c request w = (Redirect (RLogin (full_path request)), at_time t w)) as ->.
  { unfold serve.
    destruct c; try discriminate Hauth; cbn [dispatch];
      unfold new_post, post_edit, add_comment, follow_index, profile_follow,
        profile_unfollow;
      by rewrite login_required_anonymous. }
  done.
Qed.
End Handlers.

(** ** A program logic for the handlers *)

Section Hoare.
Context `{PythonInt}.
Context (R : relation World) `{!Frame R}.

Lemma hoare_ret {A} (x : A) (Q : A → Prop) : Q x → hoare R (mret x) Q.
Proof. intros HQ w. split; [reflexivity|exact HQ]. Qed.

Lemma hoare_raise {A} e (Q : A → Prop) : hoare R (raise e) Q.
Proof. intros w. split; [reflexivity|exact I]. Qed.

Lemma hoare_bind {A B} (m : M A) (k : A → M B) (Q : A → Prop) (Q' : B → Prop) :
  hoare R m Q → (∀ x, Q x → hoare R (k x) Q') → hoare R (m ≫= k) Q'.
Proof.
  intros Hm Hk w. rewrite bind_unfold.
  destruct (Hm w) as [HR HQ]. destruct (m w) as [[e|x] w1]; simpl in *.
  - split; [exact HR|exact I].
  - destruct (Hk x HQ w1) as [HR' HQ']. split; [|exact HQ'].
    by etrans.
Qed.

Lemma hoare_query {A} (f : DB → A) (Q : A → Prop) :
  (∀ d, Q (f d)) → hoare R (query f) Q.
Proof. intros HQ w. split; [apply frame_tick|apply HQ]. Qed.

Lemma hoare_execute {A} (f : DB → A * DB) (Q : A → Prop) :
  (∀ w, R w (execute f w).2) → (∀ x, Q x) → hoare R (execute f) Q.
Proof. intros Hf HQ w. split; [apply Hf|apply HQ]. Qed.

Lemma hoare_now (Q : Z → Prop) : (∀ t, Q t) → hoare R now Q.
Proof. intros HQ w. split; [reflexivity|apply HQ]. Qed.

Lemma hoare_cache_get k (Q : option Response → Prop) :
  (∀ r, Q r) → hoare R (cache_get k) Q.
Proof. intros HQ w. split; [reflexivity|apply HQ]. Qed.

Lemma hoare_cache_set k r timeout (Q : unit → Prop) :
  writes_cache R → Q () → hoare R (cache_set k r timeout) Q.
Proof. intros Hset HQ w. split; [apply Hset|exact HQ]. Qed.

Lemma hoare_get_object_or_404 {A} (matching : DB → list A) (Q : A → Prop) :
  (∀ d x, x ∈ matching d → Q x) → hoare R (get_object_or_404 matching) Q.
Proof.
  intros HQ w. unfold get_object_or_404. rewrite bind_query.
  specialize (HQ (db w)). destruct (matching (db w)) as [|x [|y l]]; simpl.
  - split; [apply frame_tick|exact I].
  - split; [apply frame_tick|]. apply HQ. apply list_elem_of_here.
  - split; [apply frame_tick|exact I].
Qed.

Lemma hoare_get_page paginator page_number (Q : Paginator.Page Post.t → Prop) :
  (∀ pg, Q pg) → hoare R (get_page paginator page_number) Q.
Proof.
  intros HQ. unfold get_page.
  destruct (Paginator.get_page paginator page_number);
    [apply hoare_raise|by apply hoare_ret].
Qed.

Lemma hoare_render template context (Q : Response → Prop) :
  (∀ r, Q r) → hoare R (render template context) Q.
Proof. intros HQ. by apply hoare_ret. Qed.

Lemma hoare_redirect to (Q : Response → Prop) :
  (∀ r, Q r) → hoare R (redirect to) Q.
Proof. intros HQ. by apply hoare_ret. Qed.

Lemma hoare_login_required (view : User.t → View) request (Q : Response → Prop) :
  (∀ r, Q r) →
  (∀ u, user request = Some u → hoare R (view u request) Q) →
  hoare R (login_required view request) Q.
Proof.
  intros HQ Hview. unfold login_required.
  destruct (user request) as [u|]; [by apply Hview|by apply hoare_redirect].
Qed.

Lemma hoare_cache_page timeout key_prefix (view : View) request :
  writes_cache R →
  hoare R (view request) (λ _, True) →
  hoare R (cache_page timeout key_prefix view request) (λ _, True).
Proof.
  intros Hset Hview. unfold cache_page. case_bool_decide; [|exact Hview].
  eapply (hoare_bind _ _ (λ _, True)); [by apply hoare_cache_get|].
  intros hit _. eapply (hoare_bind _ _ (λ _, True)).
  { destruct hit; [by apply hoare_ret|].
    case_bool_decide; [by apply hoare_cache_get|by apply hoare_ret]. }
  clear hit. intros [r|] _; [by apply hoare_ret|].
  eapply (hoare_bind _ _ (λ _, True)); [exact Hview|]. intros response _.
  destruct (status_code response =? 200); [|by apply hoare_ret].
  eapply (hoare_bind _ _ (λ _, True)); [by apply hoare_cache_set|].
  intros _ _. by apply hoare_ret.
Qed.
End Hoare.

(** One step of a proof in the logic: a bind, a primitive, or a case of the
    program. *)
Ltac hoare_step :=
  lazymatch goal with
  | |- hoare ?R (mbind _ _) _ => eapply (hoare_bind R _ _ (λ _, True)); [|intros ? _]
  | |- hoare ?R (mret _) _ => by apply (hoare_ret R)
  | |- hoare ?R (raise _) _ => by apply (hoare_raise R)
  | |- hoare ?R (query _) _ => by apply (hoare_query R)
  | |- hoare ?R now _ => by apply (hoare_now R)
  | |- hoare ?R (get_object_or_404 _) _ => by apply (hoare_get_object_or_404 R)
  | |- hoare ?R (get_page _ _) _ => by apply (hoare_get_page R)
  | |- hoare ?R (render _ _) _ => by apply (hoare_render R)
  | |- hoare ?R (redirect _) _ => by apply (hoare_redirect R)
  | |- hoare ?R (login_required _ _) _ =>
      apply (hoare_login_required R); [done|intros ? ?]
  | |- hoare ?R (cache_page _ _ _ _) _ => apply (hoare_cache_page R); [done|]
  | |- hoare _ (match ?x with _ => _ end) _ => destruct x
  | |- hoare _ (if ?b then _ else _) _ => destruct b
  end.

(** ** What each handler may change *)

Lemma on_db_frame (R : relation DB) `{!PreOrder R} : Frame (on_db R).
Proof.
  split; [split|].
  - intros w. unfold on_db. reflexivity.
  - intros w1 w2 w3. unfold on_db. apply transitivity.
  - intros w. unfold on_db. reflexivity.
Qed.
#[global] Existing Instance on_db_frame.

Lemma same_cache_frame : Frame same_cache.
Proof.
  split; [split|]; unfold same_cache.
  - by intros w.
  - intros w1 w2 w3. congruence.
  - by intros w.
Qed.
#[global] Existing Instance same_cache_frame.

Lemma on_db_writes_cache (R : relation DB) `{!PreOrder R} : writes_cache (on_db R).
Proof. intros k r timeout w. unfold on_db. reflexivity. Qed.

Lemma same_cache_writes_posts : writes_posts same_cache.
Proof. by intros l seq w. Qed.

Lemma same_cache_writes_comments : writes_comments same_cache.
Proof. by intros l seq w. Qed.

Lemma same_cache_writes_follows : writes_follows same_cache.
Proof. by intros l seq w. Qed.

Section Frames.
Context `{ImageDecoder} `{Storage} `{PythonInt}.
Context (R : relation World) `{!Frame R}.

Lemma clean_group_frame data : hoare R (PostForm.clean_group data) (λ _, True).
Proof. unfold PostForm.clean_group. repeat hoare_step. Qed.

Lemma index_uncached_frame request : hoare R (index_uncached request) (λ _, True).
Proof. unfold index_uncached. repeat hoare_step. Qed.

Lemma index_frame request : writes_cache R → hoare R (index request) (λ _, True).
Proof. intros Hset. unfold index. hoare_step. apply index_uncached_frame. Qed.

Lemma group_posts_frame slug request : hoare R (group_posts slug request) (λ _, True).
Proof. unfold group_posts. repeat hoare_step. Qed.

Lemma profile_frame username request : hoare R (profile username request) (λ _, True).
Proof. unfold profile. repeat hoare_step. Qed.

Lemma post_view_frame username post_id request :
  hoare R (post_view username post_id request) (λ _, True).
Proof. unfold post_view. repeat hoare_step. Qed.

Lemma follow_index_frame request : hoare R (follow_index request) (λ _, True).
Proof. unfold follow_index. repeat hoare_step. Qed.

Lemma hoare_save_comment c :
  writes_comments R → hoare R (save_comment c) (λ _, True).
Proof.
  intros Hset. unfold save_comment.
  destruct (Comment.author c), (Comment.post c), (Comment.pk c);
    repeat first [hoare_step | apply (hoare_execute R); [intros w; apply Hset|done]].
Qed.

Lemma hoare_save_post p : writes_posts R → hoare R (save_post p) (λ _, True).
Proof.
  intros Hset. unfold save_post.
  destruct (Post.author p), (Post.pk p);
    repeat first [hoare_step | apply (hoare_execute R); [intros w; apply Hset|done]].
Qed.

Lemma hoare_create_follow u author :
  writes_follows R → hoare R (create_follow u author) (λ _, True).
Proof. intros Hset. apply (hoare_execute R); [intros w; apply Hset|done]. Qed.

Lemma hoare_delete_follows u author :
  writes_follows R → hoare R (delete_follows u author) (λ _, True).
Proof. intros Hset. apply (hoare_execute R); [intros w; apply Hset|done]. Qed.

Lemma hoare_post_form_is_valid form : hoare R (PostForm.is_valid form) (λ _, True).
Proof.
  unfold PostForm.is_valid. destruct (Form.is_bound form); [|hoare_step].
  cbv zeta. hoare_step; [apply clean_group_frame|].
  repeat hoare_step.
Qed.

Lemma hoare_comment_form_is_valid form :
  hoare R (CommentForm.is_valid form) (λ _, True).
Proof. unfold CommentForm.is_valid. cbv zeta. repeat hoare_step. Qed.

Lemma add_comment_frame username post_id request :
  writes_comments R → hoare R (add_comment username post_id request) (λ _, True).
Proof.
  intros Hset. unfold add_comment, CommentForm.save. cbv zeta.
  repeat first [hoare_step | apply hoare_comment_form_is_valid
               | by apply hoare_save_comment].
Qed.

Lemma profile_follow_frame username request :
  writes_follows R → hoare R (profile_follow username request) (λ _, True).
Proof.
  intros Hset. unfold profile_follow. cbv zeta.
  repeat first [hoare_step | by apply hoare_create_follow].
Qed.

Lemma profile_unfollow_frame username request :
  writes_follows R → hoare R (profile_unfollow username request) (λ _, True).
Proof.
  intros Hset. unfold profile_unfollow.
  repeat first [hoare_step | by apply hoare_delete_follows].
Qed.

Lemma new_post_frame request : writes_posts R → hoare R (new_post request) (λ _, True).
Proof.
  intros Hset. unfold new_post, PostForm.save. cbv zeta.
  repeat first [hoare_step | apply hoare_post_form_is_valid
               | by apply hoare_save_post].
Qed.

Lemma post_edit_frame username post_id request :
  writes_posts R → hoare R (post_edit username post_id request) (λ _, True).
Proof.
  intros Hset. unfold post_edit, PostForm.save. cbv zeta.
  repeat first [hoare_step | apply hoare_post_form_is_valid
               | by apply hoare_save_post].
Qed.

(** What holds of the view holds of the request served, from the state
    in which the view starts. *)
Lemma serve_frame t c request w :
  hoare R (dispatch c request) (λ _, True) →
  R (at_time t w) (serve t c request w).2.
Proof.
  intros Hview. unfold serve. destruct (Hview (at_time t w)) as [HR _].
  destruct (dispatch c request (at_time t w)) as [[e|r] w']; simpl in *; [|exact HR].
  destruct e; exact HR.
Qed.
End Frames.

(** ** Images *)

Lemma image_frame_preorder : PreOrder image_frame.
Proof.
  split.
  - intros d p Hp. by left.
  - intros d1 d2 d3 H12 H23 p Hp.
    destruct (H23 p Hp) as [Hp2|Hnone]; [by apply H12|by right].
Qed.
#[global] Existing Instance image_frame_preorder.

Section Images.
Context `{ImageDecoder} `{Storage} `{PythonInt}.

Lemma image_frame_same_posts d d' : posts d' = posts d → image_frame d d'.
Proof. intros Heq p Hp. left. by rewrite <- Heq. Qed.

(** A form built without files and without an instance validates to an
    instance that is new and has no image. *)
Lemma new_form_is_valid_no_image data :
  hoare (on_db image_frame) (PostForm.is_valid (PostForm.init data None None))
    (λ vf, vf.1 = true →
           Form.errors vf.2 = Some []
           ∧ Post.pk (Form.instance vf.2) = None
           ∧ Post.image (Form.instance vf.2) = None).
Proof.
  unfold PostForm.is_valid.
  destruct (Form.is_bound (PostForm.init data None None));
    [|by apply (hoare_ret (on_db image_frame))].
  cbv zeta. eapply (hoare_bind _ _ _ (λ _, True)); [apply clean_group_frame; apply _|].
  intros group _. cbn [PostForm.init Form.files Form.instance default].
  unfold PostForm.clean_image. rewrite lookup_empty. cbn [PostForm.blank Post.image].
  destruct (PostForm.clean_text _), group, (checkbox _ _);
    by apply (hoare_ret (on_db image_frame)).
Qed.

Lemma save_post_no_image p :
  Post.pk p = None → Post.image p = None →
  hoare (on_db image_frame) (save_post p) (λ _, True).
Proof.
  intros Hpk Himage. unfold save_post. rewrite Hpk.
  destruct (Post.author p); [|hoare_step].
  repeat hoare_step. apply (hoare_execute (on_db image_frame)); [|done].
  intros w q Hq. cbn [execute fst snd db set_posts posts] in Hq.
  apply elem_of_app in Hq as [Hq|Hq]; [by left|].
  apply list_elem_of_singleton in Hq as ->. by right.
Qed.

Lemma new_post_image_frame request :
  hoare (on_db image_frame) (new_post request) (λ _, True).
Proof.
  unfold new_post. hoare_step.
  eapply (hoare_bind (on_db image_frame)); [apply new_form_is_valid_no_image|].
  intros [valid form] Hvalid. cbn [fst snd] in Hvalid.
  destruct valid; cbn [negb]; [|hoare_step].
  destruct (Hvalid eq_refl) as (Herrors & Hpk & Himage).
  unfold PostForm.save. rewrite Herrors.
  eapply (hoare_bind (on_db image_frame) _ _ (λ post, post = Form.instance form));
    [by apply (hoare_ret (on_db image_frame))|].
  intros post ->. hoare_step; [|hoare_step].
  by apply save_post_no_image.
Qed.

Lemma dispatch_image_frame c request :
  (∀ username post_id, c ≠ PostEdit username post_id) →
  hoare (on_db image_frame) (dispatch c request) (λ _, True).
Proof.
  intros Hc.
  assert (writes_comments (on_db image_frame)) as Hcomments
    by (intros l seq w; by apply image_frame_same_posts).
  assert (writes_follows (on_db image_frame)) as Hfollows
    by (intros l seq w; by apply image_frame_same_posts).
  destruct c; cbn [dispatch].
  - apply index_frame; [apply _|]. apply on_db_writes_cache, _.
  - apply group_posts_frame, _.
  - apply new_post_image_frame.
  - apply profile_frame, _.
  - apply post_view_frame, _.
  - by destruct (Hc username post_id).
  - by apply add_comment_frame; [apply _|].
  - apply follow_index_frame, _.
  - by apply profile_follow_frame; [apply _|].
  - by apply profile_unfollow_frame; [apply _|].
Qed.

(** C10: a post that a request leaves in the table either was there
    before or has no image, for every handler but [post_edit] and
    whatever files the request carries.  For [new_post] this says that
    every post it creates has an empty image field. *)
Theorem image_attached_only_by_post_edit t c request w p :
  (∀ username post_id, c ≠ PostEdit username post_id) →
  p ∈ posts (db (serve t c request w).2) →
  p ∈ posts (db w) ∨ Post.image p = None.
Proof.
  intros Hc Hp.
  by apply (serve_frame (on_db image_frame) t c request w
              (dispatch_image_frame c request Hc)).
Qed.
End Images.

(** ** Editing a post *)

Section Edit.
Context `{ImageDecoder} `{Storage} `{PythonInt}.
Implicit Types (w : World) (request : Request) (t : Z).

(** C2: when the post of that key and author exists and the requesting
    user is not its author, [post_edit] redirects to [post_view] and the
    tables, with every field of the post, and the cache are the ones
    before: nothing is created, updated or deleted. *)
Theorem post_edit_by_other_user_changes_nothing t username post_id request u post w :
  user request = Some u →
  post_by_pk_author post_id username (db w) = [post] →
  Some (User.pk u) ≠ Post.author post →
  (serve t (PostEdit username post_id) request w).1 = Redirect (RPostView username post_id)
  ∧ db (serve t (PostEdit username post_id) request w).2 = db w
  ∧ cache (serve t (PostEdit username post_id) request w).2 = cache w.
Proof.
  intros Huser Hpost Hother.
  unfold serve. cbn [dispatch]. unfold post_edit, login_required. rewrite Huser.
  rewrite (bind_get_object _ _ _ post) by exact Hpost.
  rewrite bool_decide_eq_true_2 by exact Hother.
  done.
Qed.
End Edit.

(** ** Following *)

Lemma follows_frame_preorder : PreOrder follows_frame.
Proof.
  split; [by intros d|].
  intros d1 d2 d3 H12 H23. unfold follows_frame in *. congruence.
Qed.
#[global] Existing Instance follows_frame_preorder.

Section Following.
Context `{ImageDecoder} `{Storage} `{PythonInt}.
Implicit Types (w : World) (request : Request) (t : Z) (d : DB).

(** The tables that [profile_follow] leaves. *)
Lemma serve_profile_follow_db t username request w :
  db (serve t (ProfileFollow username) request w).2
  = profile_follow_db request username (db w).
Proof.
  unfold serve, profile_follow_db. cbn [dispatch].
  unfold profile_follow, login_required.
  destruct (user request) as [u|]; [|done].
  rewrite bind_get_object_cases. cbn [at_time db].
  destruct (user_by_username username (db w)) as [|author [|other rest]]; [done| |done].
  rewrite bind_query. cbn [tick db].
  destruct (decide (User.pk u = User.pk author)) as [Hself|Hother].
  { rewrite (bool_decide_eq_true_2 _ Hself). cbn [negb andb].
    rewrite bool_decide_eq_false_2 by tauto. done. }
  rewrite (bool_decide_eq_false_2 _ Hother). cbn [negb andb].
  destruct (decide (follow_rows u author (db w) = [])) as [Hnone|Hsome].
  - rewrite (bool_decide_eq_false_2 (follow_rows u author (db w) ≠ [])) by tauto.
    rewrite (bool_decide_eq_true_2 (false = false)) by done.
    rewrite bool_decide_eq_true_2 by done. done.
  - rewrite (bool_decide_eq_true_2 (follow_rows u author (db w) ≠ [])) by done.
    rewrite (bool_decide_eq_false_2 (true = false)) by done.
    rewrite bool_decide_eq_false_2 by tauto. done.
Qed.

(** The tables that [profile_unfollow] leaves. *)
Lemma serve_profile_unfollow_db t username request w :
  db (serve t (ProfileUnfollow username) request w).2
  = profile_unfollow_db request username (db w).
Proof.
  unfold serve, profile_unfollow_db. cbn [dispatch].
  unfold profile_unfollow, login_required.
  destruct (user request) as [u|]; [|done].
  rewrite bind_get_object_cases. cbn [at_time db].
  destruct (user_by_username username (db w)) as [|author [|other rest]]; done.
Qed.

Lemma follow_rows_snoc u author d l seq :
  follow_rows u author
    (set_follows (l ++ [Follow.Build seq (User.pk u) (User.pk author)]) (S seq) d) ≠ [].
Proof.
  unfold follow_rows. cbn [set_follows follows]. rewrite filter_app.
  rewrite filter_singleton_True by done.
  intros Hnil. by apply app_eq_nil in Hnil as [_ ?].
Qed.

(** A second call of [profile_follow] finds the tables as the first call
    left them. *)
Lemma profile_follow_db_idempotent request username d :
  profile_follow_db request username (profile_follow_db request username d)
  = profile_follow_db request username d.
Proof.
  remember (profile_follow_db request username d) as d' eqn:Hd'.
  unfold profile_follow_db in *.
  destruct (user request) as [u|]; [|by subst d'].
  destruct (user_by_username username d) as [|author [|other rest]] eqn:Hauthor;
    [subst d'; by rewrite Hauthor| |subst d'; by rewrite Hauthor].
  case_bool_decide as Hnew.
  - subst d'.
    replace (user_by_username username (set_follows _ _ d)) with [author] by done.
    rewrite bool_decide_eq_false_2; [done|].
    intros [_ Hnone]. by apply follow_rows_snoc in Hnone.
  - subst d'. rewrite Hauthor. by rewrite bool_decide_eq_false_2.
Qed.

Lemma NoDup_fmap_filter {A B} (g : A → B) (P : A → Prop) `{∀ x, Decision (P x)}
    (l : list A) :
  NoDup (g <$> l) → NoDup (g <$> filter P l).
Proof.
  induction l as [|x l IH]; [done|].
  rewrite fmap_cons. intros [Hnotin Hnodup]%NoDup_cons.
  rewrite filter_cons. case_decide; [|by apply IH].
  rewrite fmap_cons. apply NoDup_cons. split; [|by apply IH].
  intros (y & Heq & Hin)%list_elem_of_fmap.
  apply list_elem_of_filter in Hin as [_ Hin].
  apply Hnotin, list_elem_of_fmap. eauto.
Qed.

Lemma follow_invariant_filter (P : Follow.t → Prop) `{∀ f, Decision (P f)} d seq :
  follow_invariant d → follow_invariant (set_follows (filter P (follows d)) seq d).
Proof.
  unfold follow_invariant, follow_pairs. cbn [set_follows follows].
  intros [Hnodup Hself]. split; [by apply NoDup_fmap_filter|].
  apply Forall_forall. intros f [_ Hin]%list_elem_of_filter.
  by eapply Forall_forall in Hself.
Qed.

Lemma profile_follow_db_invariant request username d :
  follow_invariant d → follow_invariant (profile_follow_db request username d).
Proof.
  intros Hinv. unfold profile_follow_db.
  destruct (user request) as [u|]; [|done].
  destruct (user_by_username username d) as [|author [|other rest]]; [done| |done].
  case_bool_decide as Hnew; [|done]. destruct Hnew as [Hother Hnone].
  destruct Hinv as [Hnodup Hself].
  unfold follow_invariant, follow_pairs in *. cbn [set_follows follows]. split.
  - rewrite fmap_app. apply NoDup_app. split; [done|]. split; [|apply NoDup_singleton].
    intros pair (f & -> & Hin)%list_elem_of_fmap Hnew.
    apply list_elem_of_singleton in Hnew. cbn [Follow.user Follow.author] in Hnew.
    apply (filter_nil_not_elem_of _ _ f Hnone); [|done].
    by injection Hnew as -> ->.
  - apply Forall_app. split; [done|]. by apply Forall_singleton.
Qed.

Lemma profile_unfollow_db_invariant request username d :
  follow_invariant d → follow_invariant (profile_unfollow_db request username d).
Proof.
  intros Hinv. unfold profile_unfollow_db.
  destruct (user request) as [u|]; [|done].
  destruct (user_by_username username d) as [|author [|other rest]]; [done| |done].
  by apply follow_invariant_filter.
Qed.

(** The other handlers leave the [Follow] table alone. *)
Lemma dispatch_follows_frame c request :
  (∀ username, c ≠ ProfileFollow username) →
  (∀ username, c ≠ ProfileUnfollow username) →
  hoare (on_db follows_frame) (dispatch c request) (λ _, True).
Proof.
  intros Hfollow Hunfollow. destruct c; cbn [dispatch].
  - apply index_frame; [apply _|]. apply on_db_writes_cache, _.
  - apply group_posts_frame, _.
  - by apply new_post_frame; [apply _|].
  - apply profile_frame, _.
  - apply post_view_frame, _.
  - by apply post_edit_frame; [apply _|].
  - by apply add_comment_frame; [apply _|].
  - apply follow_index_frame, _.
  - by destruct (Hfollow username).
  - by destruct (Hunfollow username).
Qed.

Lemma serve_follow_invariant t c request w :
  follow_invariant (db w) → follow_invariant (db (serve t c request w).2).
Proof.
  intros Hinv.
  assert ((∃ username, c = ProfileFollow username)
          ∨ (∃ username, c = ProfileUnfollow username)
          ∨ ((∀ username, c ≠ ProfileFollow username)
             ∧ (∀ username, c ≠ ProfileUnfollow username)))
    as [[username ->]|[[username ->]|[Hfollow Hunfollow]]]
    by (destruct c; naive_solver).
  { rewrite serve_profile_follow_db. by apply profile_follow_db_invariant. }
  { rewrite serve_profile_unfollow_db. by apply profile_unfollow_db_invariant. }
  assert (follows (db (serve t c request w).2) = follows (db w)) as Hsame.
  { apply (serve_frame (on_db follows_frame) t c request w).
    by apply dispatch_follows_frame. }
  destruct Hinv as [Hnodup Hself]. unfold follow_invariant, follow_pairs.
  by rewrite Hsame.
Qed.

Lemma reachable_follow_invariant w : reachable w → follow_invariant (db w).
Proof.
  induction 1 as [w Hempty|t c request w _ IH].
  - unfold follow_invariant, follow_pairs. rewrite Hempty.
    split; [apply NoDup_nil_2|apply Forall_nil_2].
  - by apply serve_follow_invariant.
Qed.

(** C3: in every state that the handlers reach, the [Follow] table holds
    at most one row for each [(user, author)] pair and no row from a user
    to themselves.  [profile_follow] changes the table only by adding the
    one row from the current user to the named user, and only when the
    two differ and no such row exists; so a second call, a call by a user
    who follows the named user already, and a call that names the current
    user leave the table as it is. *)
Theorem follow_rows_unique_and_never_self w :
  reachable w →
  follow_invariant (db w)
  ∧ (∀ t t' username request,
       follows (db (serve t' (ProfileFollow username) request
                      (serve t (ProfileFollow username) request w).2).2)
       = follows (db (serve t (ProfileFollow username) request w).2))
  ∧ (∀ t username request u author,
       user request = Some u →
       user_by_username username (db w) = [author] →
       follow_rows u author (db w) ≠ [] ∨ User.pk u = User.pk author →
       follows (db (serve t (ProfileFollow username) request w).2) = follows (db w))
  ∧ (∀ t username request,
       follows (db (serve t (ProfileFollow username) request w).2) ≠ follows (db w) →
       ∃ u author,
         user request = Some u
         ∧ user_by_username username (db w) = [author]
         ∧ User.pk u ≠ User.pk author
         ∧ follow_rows u author (db w) = []
         ∧ follows (db (serve t (ProfileFollow username) request w).2)
           = (follows (db w)
              ++ [Follow.Build (follow_seq (db w)) (User.pk u) (User.pk author)])%list).
Proof.
  intros Hreach. split; [by apply reachable_follow_invariant|]. split; [|split].
  - intros t t' username request.
    by rewrite !serve_profile_follow_db, profile_follow_db_idempotent.
  - intros t username request u author Huser Hauthor Halready.
    rewrite serve_profile_follow_db. unfold profile_follow_db.
    rewrite Huser, Hauthor. rewrite bool_decide_eq_false_2; [done|].
    intros [Hother Hnone]. destruct Halready; congruence.
  - intros t username request. rewrite serve_profile_follow_db.
    unfold profile_follow_db.
    destruct (user request) as [u|]; [|done].
    destruct (user_by_username username (db w)) as [|author [|other rest]]; [done| |done].
    case_bool_decide as Hnew; [|done]. destruct Hnew as [Hother Hnone].
    intros _. by exists u, author.
Qed.
End Following.

(** ** The feed *)

Section Feed.
Context `{ImageDecoder} `{Storage} `{PythonInt}.
Implicit Types (w : World) (request : Request) (t : Z) (d : DB) (p : Post.t).

Lemma insert_newer_Permutation p (l : list Post.t) : insert_newer p l ≡ₚ p :: l.
Proof.
  induction l as [|q l IH]; [done|]. cbn [insert_newer].
  case_decide; [done|]. rewrite IH. apply Permutation_swap.
Qed.

Lemma newest_first_Permutation (l : list Post.t) : newest_first l ≡ₚ l.
Proof.
  unfold newest_first. induction l as [|p l IH]; [done|].
  cbn [foldr]. by rewrite insert_newer_Permutation, IH.
Qed.

Lemma elem_of_newest_first p (l : list Post.t) : p ∈ newest_first l ↔ p ∈ l.
Proof. by rewrite newest_first_Permutation. Qed.

(** [get_page] on the paginator of a view returns a page, which is part
    of the list. *)
Lemma get_page_make_returns (l : list Post.t) (page_number : option string) :
  ∃ page, Paginator.get_page (Paginator.make l 10) page_number = inr page
          ∧ ∀ p, p ∈ Paginator.page_object_list page → p ∈ l.
Proof.
  rewrite get_page_settles. rewrite page_in_range by apply settled_number_in_range.
  eexists. split; [reflexivity|]. cbn [Paginator.page_object_list].
  intros p (i & Hp & _)%elem_of_take. rewrite lookup_drop in Hp.
  apply list_elem_of_lookup. eauto.
Qed.

Lemma elem_of_followed_posts p u d :
  p ∈ followed_posts u d
  ↔ p ∈ posts d ∧ ∃ a, Post.author p = Some a ∧ follows_author u a d.
Proof.
  unfold followed_posts, follows_author. rewrite list_elem_of_bind. split.
  - intros (q & Hin & Hq). apply list_elem_of_bind in Hin as (f & Hp & Hf).
    apply list_elem_of_singleton in Hp as ->.
    apply list_elem_of_filter in Hf as [[Hauthor Huser] Hf].
    split; [done|]. exists (Follow.author f). eauto.
  - intros (Hp & a & Hauthor & f & Hf & Huser & Ha).
    exists p. split; [|done]. apply list_elem_of_bind. exists f.
    split; [by apply list_elem_of_singleton|].
    apply list_elem_of_filter. split; [|done]. split; congruence.
Qed.

(** Every item of the list lies on one of the pages. *)
Lemma pages_cover {A} (l : list A) (x : A) :
  x ∈ l →
  ∃ n pg, Paginator.page (Paginator.make l 10) n = inr pg
          ∧ x ∈ Paginator.page_object_list pg.
Proof.
  intros (i & Hi)%list_elem_of_lookup.
  pose proof (lookup_lt_Some _ _ _ Hi) as Hlt.
  pose proof (num_pages_bounds l) as Hbounds. cbv zeta in Hbounds.
  set (n := Z.of_nat i / 10 + 1).
  assert (0 ≤ Z.of_nat i / 10) by (apply Z.div_pos; lia).
  pose proof (Z.div_mod (Z.of_nat i) 10 ltac:(lia)) as Hdiv.
  pose proof (Z.mod_pos_bound (Z.of_nat i) 10 ltac:(lia)) as Hmod.
  assert (1 ≤ n ≤ Paginator.num_pages (Paginator.make l 10)) as Hn by (subst n; lia).
  exists n. eexists. split; [by apply page_in_range|].
  cbn [Paginator.page_object_list]. apply elem_of_take.
  exists (Z.to_nat (Z.of_nat i mod 10)). split; [|lia].
  rewrite lookup_drop. rewrite <- Hi. f_equal. subst n. lia.
Qed.

(** C5: for an authenticated user who has a row in the user table,
    [follow_index] renders the feed; the posts of the feed are exactly the
    posts whose author the user follows, the page shown is the page of the
    feed that [get_page] gives for the [page] parameter of the request, it
    is part of the feed, and every post of the feed lies on one of its
    pages. *)
Theorem follow_index_shows_followed_authors t request u author w :
  user request = Some u →
  user_by_username (User.username u) (db w) = [author] →
  ∃ context page paginator,
    (serve t FollowIndex request w).1 = Render "follow.html" context 200
    ∧ db (serve t FollowIndex request w).2 = db w
    ∧ context !! "page" = Some (VPage page)
    ∧ context !! "paginator" = Some (VPaginator paginator)
    ∧ Paginator.get_page paginator (GET request !! "page") = inr page
    ∧ (∀ p, p ∈ Paginator.object_list paginator
            ↔ p ∈ posts (db w)
              ∧ ∃ a, Post.author p = Some a ∧ follows_author u a (db w))
    ∧ (∀ p, p ∈ Paginator.page_object_list page → p ∈ Paginator.object_list paginator)
    ∧ (∀ p, p ∈ Paginator.object_list paginator →
            ∃ n pg, Paginator.page paginator n = inr pg
                    ∧ p ∈ Paginator.page_object_list pg).
Proof.
  intros Huser Hauthor.
  unfold serve. cbn [dispatch]. unfold follow_index, login_required. rewrite Huser.
  rewrite (bind_get_object _ _ _ author) by exact Hauthor.
  rewrite bind_query. cbn [tick at_time db]. cbv zeta.
  set (feed := newest_first (followed_posts u (db w))).
  destruct (get_page_make_returns feed (GET request !! "page"))
    as (page & Hpage & Hpart).
  unfold get_page. rewrite Hpage.
  rewrite bind_ret. unfold render. cbn [mret M_ret fst snd db].
  eexists _, page, (Paginator.make feed 10).
  split; [reflexivity|]. split; [reflexivity|].
  split; [by simplify_map_eq|]. split; [by simplify_map_eq|].
  split; [exact Hpage|].
  cbn [Paginator.object_list Paginator.make].
  split; [|split].
  - intros p. subst feed. by rewrite elem_of_newest_first, elem_of_followed_posts.
  - exact Hpart.
  - intros p Hp. by apply pages_cover.
Qed.
End Feed.

(** ** Viewing a post and commenting *)

Section Comments.
Context `{ImageDecoder} `{Storage} `{PythonInt}.
Implicit Types (w : World) (request : Request) (t : Z) (d : DB).

Lemma post_by_pk_author_pk post_id username d post :
  post ∈ post_by_pk_author post_id username d → Post.pk post = Some post_id.
Proof. unfold post_by_pk_author. by intros [[Hpk _] _]%list_elem_of_filter. Qed.

(** The response of [post_view] for a post that exists. *)
Lemma post_view_response t username post_id request author post w :
  user_by_username username (db w) = [author] →
  post_by_pk_author post_id username (db w) = [post] →
  (serve t (PostView username post_id) request w).1
  = Render "post_view.html"
      {[ "author" := VUser author; "username" := VStr username; "post" := VPost post;
         "count_posts" := VInt (Z.of_nat (length (author_posts author (db w))));
         "form" := VCommentForm (CommentForm.init (Some (POST request)));
         "comments" := VComments (post_comments post (db w)) ]} 200
  ∧ db (serve t (PostView username post_id) request w).2 = db w.
Proof.
  intros Hauthor Hpost. unfold serve. cbn [dispatch]. unfold post_view.
  rewrite (bind_get_object _ _ _ author) by exact Hauthor.
  rewrite (bind_get_object _ _ _ post) by exact Hpost.
  by rewrite !bind_query.
Qed.

(** C8: for a post that exists, [post_view] renders the post, its
    comments and the number of posts of its author; the comment form of
    the page, however, is built from [request.POST] itself and so is a
    bound form, also for a [GET] request, whose [POST] data is empty. *)
Theorem post_view_renders_post_with_bound_form t username post_id request author post w :
  user_by_username username (db w) = [author] →
  post_by_pk_author post_id username (db w) = [post] →
  ∃ context form,
    (serve t (PostView username post_id) request w).1
    = Render "post_view.html" context 200
    ∧ context !! "post" = Some (VPost post)
    ∧ context !! "comments" = Some (VComments (post_comments post (db w)))
    ∧ context !! "count_posts"
      = Some (VInt (Z.of_nat (length (author_posts author (db w)))))
    ∧ context !! "form" = Some (VCommentForm form)
    ∧ Form.data form = Some (POST request)
    ∧ Form.is_bound form = true.
Proof.
  intros Hauthor Hpost.
  destruct (post_view_response t username post_id request author post w Hauthor Hpost)
    as [-> _].
  eexists _, _. split; [reflexivity|]. by simplify_map_eq.
Qed.

Lemma clean_text_not_empty (data : gmap string string) text :
  CommentForm.clean_text data = Some text → or_None data = Some data.
Proof.
  unfold CommentForm.clean_text, or_None. intros Htext.
  case_decide as Hempty; [|done]. subst data. by rewrite lookup_empty in Htext.
Qed.

(** What [add_comment] stores for a valid form. *)
Lemma add_comment_stores t username post_id request u post text w :
  user request = Some u →
  post_by_pk_author post_id username (db w) = [post] →
  CommentForm.clean_text (POST request) = Some text →
  (serve t (AddComment username post_id) request w).1
  = Redirect (RPostView username post_id)
  ∧ comments (db (serve t (AddComment username post_id) request w).2)
    = (comments (db w)
       ++ [Comment.Build (Some (comment_seq (db w))) (Some post_id)
             (Some (User.pk u)) text t])%list.
Proof.
  intros Huser Hpost Htext.
  assert (Post.pk post = Some post_id) as Hpk.
  { apply (post_by_pk_author_pk post_id username (db w)). rewrite Hpost.
    apply list_elem_of_here. }
  destruct post as [pk ptext pdate pauthor pgroup pimage].
  cbn [Post.pk] in Hpk. subst pk.
  unfold serve. cbn [dispatch]. unfold add_comment, login_required. rewrite Huser.
  rewrite (bind_get_object _ _ (at_time t w) _ Hpost).
  rewrite (clean_text_not_empty _ _ Htext).
  unfold CommentForm.is_valid, CommentForm.init, Form.is_bound.
  cbn [Form.data Form.files Form.instance default id].
  rewrite bool_decide_eq_true_2 by done. cbn [orb]. rewrite Htext.
  rewrite bind_ret. cbn [negb].
  unfold CommentForm.save, save_comment. cbn. rewrite bind_ret.
  split; reflexivity.
Qed.

(** C9: a valid comment is stored with the authenticated user as its
    author and the post of the URL as its post; two valid requests of the
    same user to the same URL, whatever else their forms carry, store the
    same author and the same post. *)
Theorem add_comment_author_and_post_from_handler
    t username post_id request1 request2 u post text1 text2 w :
  user request1 = Some u →
  user request2 = Some u →
  post_by_pk_author post_id username (db w) = [post] →
  CommentForm.clean_text (POST request1) = Some text1 →
  CommentForm.clean_text (POST request2) = Some text2 →
  ∃ c1 c2,
    comments (db (serve t (AddComment username post_id) request1 w).2)
    = (comments (db w) ++ [c1])%list
    ∧ comments (db (serve t (AddComment username post_id) request2 w).2)
      = (comments (db w) ++ [c2])%list
    ∧ Comment.author c1 = Some (User.pk u)
    ∧ Comment.author c2 = Some (User.pk u)
    ∧ Comment.post c1 = Post.pk post
    ∧ Comment.post c2 = Post.pk post
    ∧ Comment.text c1 = text1
    ∧ Comment.text c2 = text2.
Proof.
  intros Huser1 Huser2 Hpost Htext1 Htext2.
  assert (Post.pk post = Some post_id) as Hpk.
  { apply (post_by_pk_author_pk post_id username (db w)). rewrite Hpost.
    apply list_elem_of_here. }
  destruct (add_comment_stores t username post_id request1 u post text1 w)
    as [_ ->]; [done..|].
  destruct (add_comment_stores t username post_id request2 u post text2 w)
    as [_ ->]; [done..|].
  eexists _, _. split; [reflexivity|]. split; [reflexivity|].
  by rewrite Hpk.
Qed.
End Comments.

(** ** Uploads that are not images *)

Section Uploads.
Context `{ImageDecoder} `{Storage} `{PythonInt}.
Implicit Types (w : World) (request : Request) (t : Z) (d : DB).

(** [new_post] does not read the uploaded files. *)
Lemma new_post_ignores_files t files request w :
  serve t NewPost (with_files files request) w = serve t NewPost request w.
Proof.
  destruct request as [m sc ho p fp u g po fi]. unfold serve. cbn [dispatch].
  unfold new_post, login_required, with_files.
  cbn [user POST full_path path method scheme host GET FILES].
  destruct u as [u|]; [|reflexivity].
  match goal with
  | |- context [?view (at_time t w)] => destruct (view (at_time t w)) as [[[]|r] w']
  end; reflexivity.
Qed.

Lemma clean_group_returns data w :
  ∃ group w', PostForm.clean_group data w = (inr group, w')
              ∧ db w' = db w ∧ cache w' = cache w.
Proof.
  unfold PostForm.clean_group.
  destruct (data !! "group") as [s|]; [|by eexists _, _].
  case_decide; [by eexists _, _|].
  destruct (int s) as [k|]; [|by eexists _, _].
  rewrite bind_query.
  destruct (filter _ _); by eexists _, _.
Qed.

(** A bound form whose upload does not decode is not valid, and
    validating it changes neither the tables nor the cache. *)
Lemma is_valid_rejects_non_image form files f w :
  Form.files form = Some files →
  files !! "image" = Some f →
  decodes_as_image f = false →
  ∃ form' w', PostForm.is_valid form w = (inr (false, form'), w')
              ∧ db w' = db w ∧ cache w' = cache w.
Proof.
  intros Hfiles Hf Hnot. unfold PostForm.is_valid, Form.is_bound. rewrite Hfiles.
  rewrite (bool_decide_eq_true_2 (Some files ≠ None)) by done. rewrite orb_true_r.
  cbv zeta. cbn [default from_option id]. unfold PostForm.clean_image.
  rewrite Hf, Hnot.
  destruct (clean_group_returns (default ∅ (Form.data form)) w)
    as (group & w' & Hgroup & Hdb & Hcache).
  rewrite bind_unfold, Hgroup.
  destruct (PostForm.clean_text _), group, (checkbox _ _); by eexists _, _.
Qed.

(** The part of C1 that the code keeps: [post_edit] by the author with
    an upload that does not decode as an image renders the form again and
    leaves the tables as they are. *)
Lemma post_edit_rejects_non_image t username post_id request u post f w :
  user request = Some u →
  post_by_pk_author post_id username (db w) = [post] →
  Some (User.pk u) = Post.author post →
  FILES request !! "image" = Some f →
  decodes_as_image f = false →
  (∃ context, (serve t (PostEdit username post_id) request w).1
              = Render "posts/new_post.html" context 200)
  ∧ db (serve t (PostEdit username post_id) request w).2 = db w.
Proof.
  intros Huser Hpost Hauthor Hf Hnot.
  unfold serve. cbn [dispatch]. unfold post_edit, login_required. rewrite Huser.
  rewrite (bind_get_object _ _ (at_time t w) _ Hpost).
  rewrite bool_decide_eq_false_2 by (by intros ?).
  assert (or_None (FILES request) = Some (FILES request)) as ->.
  { unfold or_None. case_decide as Hempty; [|done].
    rewrite Hempty, lookup_empty in Hf. done. }
  edestruct (is_valid_rejects_non_image
               (PostForm.init (or_None (POST request)) (Some (FILES request)) (Some post))
               (FILES request) f (tick (at_time t w)))
    as (form' & w' & Hvalid & Hdb & Hcache); [done..|].
  rewrite bind_unfold, Hvalid. cbn [negb]. split; [by eexists|exact Hdb].
Qed.

(** C1, where the code departs from it: [new_post] builds its form from
    [request.POST] alone, so for a valid text the post is saved whatever
    file the request carries in [image], image or not, and whatever the
    decoder makes of it; the post is stored without an image.  (The
    sibling [post_edit] passes [request.FILES] to the form and rejects the
    upload, [post_edit_rejects_non_image].) *)
Theorem new_post_saves_post_whatever_the_upload (f : UploadedFile) :
  let request :=
    Sample.request "POST" "/new/" (Some Sample.test_user) ∅
      {[ "text" := "Some text" ]} {[ "image" := f ]} in
  (serve 5 NewPost request (Sample.world 0)).1 = Redirect RIndex
  ∧ posts (db (serve 5 NewPost request (Sample.world 0)).2)
    = [Post.Build (Some 1%nat) "Some text" 5 (Some 1%nat) None None].
Proof. vm_compute. split; reflexivity. Qed.
End Uploads.

(** ** The cache of the index page *)

Section CachePage.
Context (timeout : Z) (key_prefix : string) (view : View).
Implicit Types (w : World) (request : Request) (k : CacheKey) (e : CacheEntry).

Lemma cache_get_fresh k e w :
  cache w !! k = Some e → clock w < expires e → cache_get k w = (inr (Some (cached e)), w).
Proof.
  intros Hk Hfresh. unfold cache_get. rewrite Hk.
  destruct (Z.ltb_spec (clock w) (expires e)); [done|lia].
Qed.

Lemma cache_get_miss k w :
  ¬ cached_at k (clock w) w → cache_get k w = (inr None, w).
Proof.
  intros Hmiss. unfold cache_get. destruct (cache w !! k) as [e|] eqn:Hk; [|done].
  destruct (Z.ltb_spec (clock w) (expires e)); [|done].
  destruct Hmiss. by exists e.
Qed.

Lemma cache_get_result k w : ∃ hit, cache_get k w = (inr hit, w).
Proof. unfold cache_get. by eexists. Qed.

Lemma cache_get_none_not_fresh k e w :
  cache_get k w = (inr None, w) → cache w !! k = Some e → clock w < expires e → False.
Proof.
  intros Hget Hk Hfresh. rewrite (cache_get_fresh k e w Hk Hfresh) in Hget. done.
Qed.

(** A hit: the stored response, and the state as it was. *)
Lemma cache_page_hit request e w :
  method request = "GET" →
  cache w !! cache_key key_prefix "GET" request = Some e →
  clock w < expires e →
  cache_page timeout key_prefix view request w = (inr (cached e), w).
Proof.
  intros Hmethod Hk Hfresh. unfold cache_page.
  rewrite bool_decide_eq_true_2 by (by left).
  rewrite bind_unfold, (cache_get_fresh _ e w Hk Hfresh). done.
Qed.

(** A miss: the response of the view, stored under the key of the
    request for [timeout] seconds. *)
Lemma cache_page_miss request r w w' :
  method request = "GET" →
  ¬ cached_at (cache_key key_prefix "GET" request) (clock w) w →
  view request w = (inr r, w') →
  status_code r = 200 →
  cache_page timeout key_prefix view request w
  = (inr r,
     {| db := db w';
        cache := <[cache_key key_prefix "GET" request :=
                     {| expires := clock w' + timeout; cached := r |}]> (cache w');
        clock := clock w'; queries := queries w' |}).
Proof.
  intros Hmethod Hmiss Hview Hstatus. unfold cache_page.
  rewrite bool_decide_eq_true_2 by (by left).
  rewrite bind_unfold, (cache_get_miss _ w Hmiss).
  rewrite bool_decide_eq_false_2 by (rewrite Hmethod; done).
  rewrite bind_ret, bind_unfold, Hview, Hstatus, Hmethod. done.
Qed.

(** A response that is stored and has not expired stays in the cache. *)
Lemma cache_page_keeps_entry request k e w :
  (∀ w, cache (view request w).2 = cache w ∧ clock (view request w).2 = clock w) →
  cache w !! k = Some e →
  clock w < expires e →
  cache (cache_page timeout key_prefix view request w).2 !! k = Some e.
Proof.
  intros Hview Hk Hfresh. unfold cache_page.
  case_bool_decide as Hmethod; [|by rewrite (proj1 (Hview w))].
  rewrite bind_unfold.
  destruct (cache_get_result (cache_key key_prefix "GET" request) w) as [[r|] Hget];
    rewrite Hget; [done|].
  assert (k ≠ cache_key key_prefix "GET" request) as Hne_get.
  { intros ->. by eapply cache_get_none_not_fresh. }
  assert (∃ hit' : option Response,
            (if bool_decide (method request = "HEAD")
             then cache_get (cache_key key_prefix "HEAD" request)
             else mret None) w = (inr hit', w)
            ∧ (hit' = None → k ≠ cache_key key_prefix (method request) request))
    as (hit' & Hsecond & Hne).
  { case_bool_decide as Hhead.
    - destruct (cache_get_result (cache_key key_prefix "HEAD" request) w) as [hit' Hget'].
      exists hit'. split; [done|]. intros -> ->. rewrite Hhead in Hk.
      by eapply cache_get_none_not_fresh.
    - exists None. split; [done|]. intros _.
      destruct Hmethod as [Hm|Hm]; [by rewrite Hm|done]. }
  rewrite bind_unfold, Hsecond. destruct hit' as [r|]; [done|].
  specialize (Hne eq_refl). rewrite bind_unfold.
  destruct (Hview w) as [Hcache _].
  destruct (view request w) as [[err|response] w']; cbn [snd] in Hcache;
    [cbn; by rewrite Hcache|].
  destruct (status_code response =? 200); [|cbn; by rewrite Hcache].
  rewrite bind_unfold. unfold cache_set, mret, M_ret. cbn [snd cache].
  rewrite lookup_insert_ne by done. by rewrite Hcache.
Qed.
End CachePage.

Section IndexCache.
Context `{ImageDecoder} `{Storage} `{PythonInt}.
Implicit Types (w : World) (request : Request) (t : Z) (k : CacheKey) (e : CacheEntry).

(** The body of [index] returns a page, whatever the request, and leaves
    the cache and the clock alone. *)
Lemma index_uncached_returns request w :
  ∃ context w',
    index_uncached request w = (inr (Render "index.html" context 200), w')
    ∧ cache w' = cache w ∧ clock w' = clock w.
Proof.
  unfold index_uncached. rewrite bind_query. cbv zeta. unfold get_page.
  rewrite get_page_settles. rewrite page_in_range by apply settled_number_in_range.
  by eexists _, _.
Qed.

Lemma index_uncached_keeps_cache request w :
  cache (index_uncached request w).2 = cache w
  ∧ clock (index_uncached request w).2 = clock w.
Proof. by destruct (index_uncached_returns request w) as (context & w' & -> & ? & ?). Qed.

Lemma serve_index_hit t request e w :
  method request = "GET" →
  cache w !! cache_key "index_page" "GET" request = Some e →
  t < expires e →
  serve t Index request w = (cached e, at_time t w).
Proof.
  intros Hmethod Hk Hfresh. unfold serve. cbn [dispatch]. unfold index.
  by rewrite (cache_page_hit 20 "index_page" index_uncached request e (at_time t w)).
Qed.

Lemma serve_index_miss t request w :
  method request = "GET" →
  ¬ cached_at (cache_key "index_page" "GET" request) t w →
  cache (serve t Index request w).2 !! cache_key "index_page" "GET" request
  = Some {| expires := t + 20; cached := (serve t Index request w).1 |}.
Proof.
  intros Hmethod Hmiss. unfold serve. cbn [dispatch]. unfold index.
  destruct (index_uncached_returns request (at_time t w))
    as (context & w' & Hview & _ & Hclock).
  rewrite (cache_page_miss 20 "index_page" index_uncached request _ (at_time t w) _
             Hmethod Hmiss Hview eq_refl).
  cbn [fst snd cache]. by rewrite lookup_insert_eq, Hclock.
Qed.

(** No request evicts a response that has not expired. *)
Lemma serve_keeps_entry t c request k e w :
  cache w !! k = Some e →
  t < expires e →
  cache (serve t c request w).2 !! k = Some e.
Proof.
  intros Hk Hfresh.
  assert (c = Index ∨ hoare same_cache (dispatch c request) (λ _, True))
    as [->|Hframe].
  { destruct c; [by left|right..]; cbn [dispatch].
    - apply group_posts_frame, _.
    - apply new_post_frame; [apply _|apply same_cache_writes_posts].
    - apply profile_frame, _.
    - apply post_view_frame, _.
    - apply post_edit_frame; [apply _|apply same_cache_writes_posts].
    - apply add_comment_frame; [apply _|apply same_cache_writes_comments].
    - apply follow_index_frame, _.
    - apply profile_follow_frame; [apply _|apply same_cache_writes_follows].
    - apply profile_unfollow_frame; [apply _|apply same_cache_writes_follows]. }
  - pose proof (cache_page_keeps_entry 20 "index_page" index_uncached request k e
                  (at_time t w) (index_uncached_keeps_cache request) Hk Hfresh)
      as Hkept.
    unfold serve. cbn [dispatch]. unfold index.
    destruct (cache_page 20 "index_page" index_uncached request (at_time t w))
      as [[err|r] w']; [|exact Hkept].
    by destruct err.
  - pose proof (serve_frame same_cache t c request w Hframe) as Hsame.
    unfold same_cache in Hsame. by rewrite Hsame.
Qed.

Lemma run_keeps_entry (trace : list Event) k e w :
  Forall (λ ev : Event, ev.1.1 < expires e) trace →
  cache w !! k = Some e →
  cache (run trace w) !! k = Some e.
Proof.
  intros Htrace. revert w. induction Htrace as [|ev trace Hev _ IH]; intros w Hk.
  - done.
  - unfold run. cbn [foldl]. apply IH. unfold serve_event.
    by apply serve_keeps_entry.
Qed.

(** C7 (amended): a [GET] request to [index] that finds no unexpired
    response for its key runs the view and stores its response; every
    identical request served less than 20 seconds after it, whatever
    requests are served in between, new posts among them, gets that same
    response, and is served without a query and without any change of
    the tables or the cache. *)
Theorem index_served_from_cache_for_20_seconds t1 t2 request (trace : list Event) w :
  method request = "GET" →
  ¬ cached_at (cache_key "index_page" "GET" request) t1 w →
  Forall (λ ev : Event, ev.1.1 < t1 + 20) trace →
  t2 < t1 + 20 →
  let first := serve t1 Index request w in
  let w' := run trace first.2 in
  serve t2 Index request w' = (first.1, at_time t2 w').
Proof.
  intros Hmethod Hmiss Htrace Ht2 first w'.
  pose proof (serve_index_miss t1 request w Hmethod Hmiss) as Hstored.
  fold first in Hstored.
  pose proof (run_keeps_entry trace _ {| expires := t1 + 20; cached := first.1 |}
                first.2 Htrace Hstored) as Hkept.
  fold w' in Hkept.
  by rewrite (serve_index_hit t2 request _ w' Hmethod Hkept Ht2).
Qed.
End IndexCache.

(** ** The properties on the sample data *)

Section Samples.
Import Sample.
Local Existing Instance gif_decoder.
Local Existing Instance media_storage.
Local Existing Instance ascii_int.

(** [test_new_post_authorized_user]: one post, by the user of the request. *)
Example new_post_authorized_user :
  let request :=
    request "POST" "/new/" (Some test_user) ∅
      {[ "text" := "Text test!"; "group" := "1" ]} ∅ in
  (serve 9 NewPost request (world 0)).1 = Redirect RIndex
  ∧ db (serve 9 NewPost request (world 0)).2
    = set_posts [Post.Build (Some 1%nat) "Text test!" 9 (Some 1%nat)
                   (Some 1%nat) None] 2 (store 0).
Proof. vm_compute. split; reflexivity. Qed.

(** [test_image_on_pages]: [post_edit] attaches an image, under the name
    that the storage gives it. *)
Example post_edit_attaches_image :
  let request :=
    request "POST" "/test_user/1/edit/" (Some test_user) ∅
      {[ "text" := "Post with image" ]} {[ "image" := foo_image ]} in
  posts (db (serve 9 (PostEdit "test_user" 1) request (world 1)).2)
  = [Post.Build (Some 1%nat) "Post with image" 1 (Some 1%nat) None
       (Some (stored_name foo_image))].
Proof. vm_compute. reflexivity. Qed.

(** [test_non_image] against [post_edit]: the upload is rejected. *)
Example post_edit_rejects_urls_py :
  let request :=
    request "POST" "/test_user/1/edit/" (Some test_user) ∅
      {[ "text" := "Some text" ]} {[ "image" := urls_py ]} in
  db (serve 9 (PostEdit "test_user" 1) request (world 1)).2 = store 1.
Proof. vm_compute. reflexivity. Qed.

Example int_of_page_strings :
  PyInt.ascii_int "2" = Some 2 ∧ PyInt.ascii_int " -1_0 " = Some (-10)
  ∧ PyInt.ascii_int "two" = None ∧ PyInt.ascii_int "" = None
  ∧ PyInt.ascii_int "1__0" = None.
Proof. vm_compute. done. Qed.
End Samples.

(** ** Instances of the properties, and where two claims fail *)

Section Witnesses.
Import Sample.
Local Existing Instance gif_decoder.
Local Existing Instance media_storage.
Local Existing Instance ascii_int.

(** [test_new_post_unauthorized_user] *)
Lemma anonymous_request_redirected_to_login_witness :
  let request :=
    request "POST" "/new/" None ∅ {[ "text" := "Text test!"; "group" := "1" ]} ∅ in
  serve 9 NewPost request (world 0) = (Redirect (RLogin "/new/"), at_time 9 (world 0))
  ∧ db (serve 9 NewPost request (world 0)).2 = db (world 0)
  ∧ cache (serve 9 NewPost request (world 0)).2 = cache (world 0)
  ∧ queries (serve 9 NewPost request (world 0)).2 = queries (world 0).
Proof.
  intros request.
  apply (anonymous_request_redirected_to_login 9 NewPost request (world 0));
    reflexivity.
Defined.

Lemma post_edit_by_other_user_changes_nothing_witness :
  let request :=
    request "POST" "/test_user/1/edit/" (Some follower) ∅
      {[ "text" := "Changed text" ]} ∅ in
  (serve 9 (PostEdit "test_user" 1) request (world 1)).1
  = Redirect (RPostView "test_user" 1)
  ∧ db (serve 9 (PostEdit "test_user" 1) request (world 1)).2 = db (world 1)
  ∧ cache (serve 9 (PostEdit "test_user" 1) request (world 1)).2 = cache (world 1).
Proof.
  intros request.
  apply (post_edit_by_other_user_changes_nothing 9 "test_user" 1%nat request
           follower (post_number 1) (world 1)).
  - reflexivity.
  - vm_compute. reflexivity.
  - vm_compute. discriminate.
Defined.

(** [test_check_follow_auth], the other way round: after [follower]
    follows [test_user], the table holds the one row, and a second call
    adds none. *)
Lemma follow_rows_unique_and_never_self_witness :
  let request := get "/test_user/follow/" (Some follower) in
  let w := (serve 3 (ProfileFollow "test_user") request (world 1)).2 in
  follow_invariant (db w)
  ∧ follows (db w) = [Follow.Build 1 2 1]
  ∧ follows (db (serve 4 (ProfileFollow "test_user") request w).2) = follows (db w).
Proof.
  intros request w.
  destruct (follow_rows_unique_and_never_self w) as (Hinv & _ & Halready & _).
  { apply reachable_serve, reachable_start. reflexivity. }
  split; [exact Hinv|]. split; [vm_compute; reflexivity|].
  apply (Halready 4 "test_user" request follower test_user).
  - reflexivity.
  - vm_compute. reflexivity.
  - left. vm_compute. discriminate.
Defined.

(** [test_entry_appears_feed] *)
Lemma follow_index_shows_followed_authors_witness :
  let w := (serve 3 (ProfileFollow "test_user")
              (get "/test_user/follow/" (Some follower)) (world 1)).2 in
  let request := get "/follow/" (Some follower) in
  ∃ context page paginator,
    (serve 4 FollowIndex request w).1 = Render "follow.html" context 200
    ∧ db (serve 4 FollowIndex request w).2 = db w
    ∧ context !! "page" = Some (VPage page)
    ∧ context !! "paginator" = Some (VPaginator paginator)
    ∧ Paginator.get_page paginator (GET request !! "page") = inr page
    ∧ (∀ p, p ∈ Paginator.object_list paginator
            ↔ p ∈ posts (db w)
              ∧ ∃ a, Post.author p = Some a ∧ follows_author follower a (db w))
    ∧ (∀ p, p ∈ Paginator.page_object_list page → p ∈ Paginator.object_list paginator)
    ∧ (∀ p, p ∈ Paginator.object_list paginator →
            ∃ n pg, Paginator.page paginator n = inr pg
                    ∧ p ∈ Paginator.page_object_list pg).
Proof.
  intros w request.
  apply (follow_index_shows_followed_authors 4 request follower follower w).
  - reflexivity.
  - vm_compute. reflexivity.
Defined.

Lemma index_served_from_cache_for_20_seconds_witness :
  let home := get "/" None in
  let new_post :=
    request "POST" "/new/" (Some test_user) ∅ {[ "text" := "Text test!" ]} ∅ in
  let first := serve 0 Index home (world 1) in
  let w' := run [(5, NewPost, new_post)] first.2 in
  serve 19 Index home w' = (first.1, at_time 19 w').
Proof.
  intros home new_post.
  apply (index_served_from_cache_for_20_seconds 0 19 home
           [(5, NewPost, new_post)] (world 1)).
  - reflexivity.
  - intros (e & He & _). vm_compute in He. discriminate He.
  - repeat constructor.
  - reflexivity.
Defined.

Lemma post_view_renders_post_with_bound_form_witness :
  let request := get "/test_user/1/" None in
  ∃ context form,
    (serve 9 (PostView "test_user" 1) request (world 1)).1
    = Render "post_view.html" context 200
    ∧ context !! "post" = Some (VPost (post_number 1))
    ∧ context !! "comments"
      = Some (VComments (post_comments (post_number 1) (db (world 1))))
    ∧ context !! "count_posts"
      = Some (VInt (Z.of_nat (length (author_posts test_user (db (world 1))))))
    ∧ context !! "form" = Some (VCommentForm form)
    ∧ Form.data form = Some (POST request)
    ∧ Form.is_bound form = true.
Proof.
  intros request.
  apply (post_view_renders_post_with_bound_form 9 "test_user" 1%nat request
           test_user (post_number 1) (world 1)).
  - vm_compute. reflexivity.
  - vm_compute. reflexivity.
Defined.

(** [test_auth_user_can_comment], with and without a forged author. *)
Lemma add_comment_author_and_post_from_handler_witness :
  let honest :=
    request "POST" "/test_user/1/comment/" (Some follower) ∅
      {[ "text" := "Test comment" ]} ∅ in
  let forged :=
    request "POST" "/test_user/1/comment/" (Some follower) ∅
      {[ "text" := "Test comment"; "author" := "1"; "post" := "7" ]} ∅ in
  ∃ c1 c2,
    comments (db (serve 9 (AddComment "test_user" 1) honest (world 1)).2)
    = (comments (db (world 1)) ++ [c1])%list
    ∧ comments (db (serve 9 (AddComment "test_user" 1) forged (world 1)).2)
      = (comments (db (world 1)) ++ [c2])%list
    ∧ Comment.author c1 = Some (User.pk follower)
    ∧ Comment.author c2 = Some (User.pk follower)
    ∧ Comment.post c1 = Post.pk (post_number 1)
    ∧ Comment.post c2 = Post.pk (post_number 1)
    ∧ Comment.text c1 = "Test comment"
    ∧ Comment.text c2 = "Test comment".
Proof.
  intros honest forged.
  apply (add_comment_author_and_post_from_handler 9 "test_user" 1%nat honest forged
           follower (post_number 1) "Test comment" "Test comment" (world 1)).
  - reflexivity.
  - reflexivity.
  - vm_compute. reflexivity.
  - vm_compute. reflexivity.
  - vm_compute. reflexivity.
Defined.

(** A valid image sent to [new_post] is dropped as well. *)
Lemma image_attached_only_by_post_edit_witness :
  let request :=
    request "POST" "/new/" (Some test_user) ∅
      {[ "text" := "Post with image" ]} {[ "image" := foo_image ]} in
  let p := Post.Build (Some 1%nat) "Post with image" 9 (Some 1%nat) None None in
  p ∈ posts (db (world 0)) ∨ Post.image p = None.
Proof.
  intros request p.
  apply (image_attached_only_by_post_edit 9 NewPost request (world 0) p).
  - intros username post_id. discriminate.
  - vm_compute. apply list_elem_of_here.
Defined.

(** C6, as stated, fails below the range: with 11 posts on 2 pages, the
    index asked for page 0 shows page 2, the last one, although page 1 is
    the valid page nearest to 0. *)
Lemma index_page_zero_counterexample :
  let request := request "GET" "/" None {[ "page" := "0" ]} ∅ ∅ in
  let p := Paginator.make (newest_first (posts (store 11))) 10 in
  Paginator.num_pages p = 2
  ∧ nearest_valid_page p 0 = 1
  ∧ (Paginator.number <$> page_of (serve 0 Index request (world 11)).1) = Some 2
  ∧ (Paginator.page_object_list <$> page_of (serve 0 Index request (world 11)).1)
    = Some [post_number 1]
  ∧ (Paginator.number <$> page_of (serve 0 Index request (world 11)).1)
    ≠ Some (nearest_valid_page p 0).
Proof. vm_compute. repeat split; try reflexivity. discriminate. Qed.

(** C7, as stated, fails when the first of the two requests was itself
    answered from the cache: the response stored at time 0 expires at
    time 20, so of two identical requests at times 15 and 25, less than
    20 seconds apart, the first one is answered without a query and the
    second one runs the view again, queries the store and, a post having
    been added at time 16, gets another response. *)
Lemma index_recomputed_within_20_seconds_counterexample :
  let home := get "/" None in
  let new_post :=
    request "POST" "/new/" (Some test_user) ∅ {[ "text" := "Text test!" ]} ∅ in
  let w0 := (serve 0 Index home (world 1)).2 in
  let first := serve 15 Index home w0 in
  let w1 := (serve 16 NewPost new_post first.2).2 in
  let second := serve 25 Index home w1 in
  25 - 15 < 20
  ∧ queries first.2 = queries w0
  ∧ (queries w1 < queries second.2)%nat
  ∧ second.1 ≠ first.1.
Proof.
  intros home new_post w0 first w1 second.
  split; [reflexivity|]. split; [vm_compute; reflexivity|].
  split; [vm_compute; lia|].
  intros Heq.
  apply (f_equal (λ r, length ∘ Paginator.page_object_list <$> page_of r)) in Heq.
  vm_compute in Heq. discriminate Heq.
Qed.
End Witnesses.

(** * Further properties of the handlers *)

(** ** What the handlers leave alone *)

Lemma users_groups_frame_preorder : PreOrder users_groups_frame.
Proof.
  split.
  - by intros d.
  - intros d1 d2 d3 [Hu12 Hg12] [Hu23 Hg23]. split; congruence.
Qed.
#[global] Existing Instance users_groups_frame_preorder.

Section Untouched.
Context `{ImageDecoder} `{Storage} `{PythonInt}.
Implicit Types (w : World) (request : Request) (t : Z).

(** X1: the handlers that only read ([index], [group_posts], [profile],
    [post_view], [follow_index]) leave every table as it is, whatever the
    request and whatever they answer, a page, a 404 or a 500. *)
Theorem read_handlers_change_no_table t c request w :
  read_only c = true →
  db (serve t c request w).2 = db w.
Proof.
  intros Hread. symmetry.
  apply (serve_frame (on_db eq) t c request w).
  destruct c; try discriminate Hread; cbn [dispatch].
  - apply index_frame; [apply _|]. apply on_db_writes_cache, _.
  - apply group_posts_frame, _.
  - apply profile_frame, _.
  - apply post_view_frame, _.
  - apply follow_index_frame, _.
Qed.

(** The users and the groups stay. *)
Lemma serve_users_groups t c request w :
  users (db (serve t c request w).2) = users (db w)
  ∧ groups (db (serve t c request w).2) = groups (db w).
Proof.
  apply (serve_frame (on_db users_groups_frame) t c request w).
  assert (writes_posts (on_db users_groups_frame)) as Hposts by done.
  assert (writes_comments (on_db users_groups_frame)) as Hcomments by done.
  assert (writes_follows (on_db users_groups_frame)) as Hfollows by done.
  destruct c; cbn [dispatch].
  - apply index_frame; [apply _|]. apply on_db_writes_cache, _.
  - apply group_posts_frame, _.
  - by apply new_post_frame; [apply _|].
  - apply profile_frame, _.
  - apply post_view_frame, _.
  - by apply post_edit_frame; [apply _|].
  - by apply add_comment_frame; [apply _|].
  - apply follow_index_frame, _.
  - by apply profile_follow_frame; [apply _|].
  - by apply profile_unfollow_frame; [apply _|].
Qed.

(** X2: no handler creates, changes or deletes a user or a group: after
    any request the two tables are the ones before. *)
Theorem handlers_keep_users_and_groups t c request w :
  users (db (serve t c request w).2) = users (db w)
  ∧ groups (db (serve t c request w).2) = groups (db w).
Proof. apply serve_users_groups. Qed.
End Untouched.

(** ** Objects that do not exist *)

Section NotFound.
Context `{ImageDecoder} `{Storage} `{PythonInt}.
Implicit Types (w : World) (request : Request) (t : Z).

Lemma bind_get_object_missing {A B} (matching : DB → list A) (k : A → M B) w :
  matching (db w) = [] →
  (get_object_or_404 matching ≫= k) w = (inl Http404, tick w).
Proof. intros Hnone. by rewrite bind_get_object_cases, Hnone. Qed.

(** X3: a request that names a group, a user or a post that does not
    exist ([group_posts], [profile], [post_view], and for an authenticated
    user [post_edit], [add_comment], [profile_follow], [profile_unfollow])
    is answered by the 404 page of [page_not_found], which shows the path
    of the request, and no table is written.  Where the URL carries the
    key of a post, this is for a key within the keys of the store, up to
    [max_key]. *)
Theorem missing_target_is_not_found t c request w :
  key_in_range c →
  target_missing c request (db w) →
  (serve t c request w).1 = not_found_page request
  ∧ db (serve t c request w).2 = db w.
Proof.
  intros _ Hmissing. unfold serve.
  destruct c; cbn [target_missing] in Hmissing; try done; cbn [dispatch].
  - unfold group_posts.
    by rewrite (bind_get_object_missing _ _ (at_time t w) Hmissing).
  - unfold profile.
    by rewrite (bind_get_object_missing _ _ (at_time t w) Hmissing).
  - unfold post_view. destruct Hmissing as [Huser|[[author Huser] Hpost]].
    + by rewrite (bind_get_object_missing _ _ (at_time t w) Huser).
    + rewrite (bind_get_object _ _ (at_time t w) _ Huser).
      by rewrite (bind_get_object_missing _ _ (tick (at_time t w)) Hpost).
  - destruct Hmissing as [Huser Hpost]. unfold post_edit, login_required.
    destruct (user request) as [u|]; [|done].
    by rewrite (bind_get_object_missing _ _ (at_time t w) Hpost).
  - destruct Hmissing as [Huser Hpost]. unfold add_comment, login_required.
    destruct (user request) as [u|]; [|done].
    by rewrite (bind_get_object_missing _ _ (at_time t w) Hpost).
  - destruct Hmissing as [Huser Hnone]. unfold profile_follow, login_required.
    destruct (user request) as [u|]; [|done].
    by rewrite (bind_get_object_missing _ _ (at_time t w) Hnone).
  - destruct Hmissing as [Huser Hnone]. unfold profile_unfollow, login_required.
    destruct (user request) as [u|]; [|done].
    by rewrite (bind_get_object_missing _ _ (at_time t w) Hnone).
Qed.
End NotFound.

(** ** Creating and editing posts *)

Section Posting.
Context `{ImageDecoder} `{Storage} `{PythonInt}.
Implicit Types (w : World) (request : Request) (t : Z) (d : DB).

Lemma default_or_None {V} (m : gmap string V) : default ∅ (or_None m) = m.
Proof. unfold or_None. by case_decide. Qed.

Lemma post_text_not_empty (data : gmap string string) text :
  PostForm.clean_text data = Some text → or_None data = Some data.
Proof.
  unfold PostForm.clean_text, or_None. intros Htext.
  case_decide as Hempty; [|done]. subst data. by rewrite lookup_empty in Htext.
Qed.

(** The group that the form settles on depends on the tables alone. *)
Lemma clean_group_tables data w1 w2 :
  db w1 = db w2 →
  (PostForm.clean_group data w1).1 = (PostForm.clean_group data w2).1.
Proof.
  intros Hdb. unfold PostForm.clean_group.
  destruct (data !! "group") as [s|]; [|done].
  case_decide; [done|].
  destruct (int s) as [k|]; [|done].
  rewrite !bind_query, Hdb. by destruct (filter _ _).
Qed.

(** A bound form: the result of [is_valid], field by field. *)
Lemma post_form_is_valid_bound form w :
  Form.is_bound form = true →
  ∃ group w',
    (PostForm.clean_group (default ∅ (Form.data form)) w).1 = inr group
    ∧ db w' = db w ∧ cache w' = cache w ∧ clock w' = clock w
    ∧ PostForm.is_valid form w
      = (inr (match PostForm.clean_text (default ∅ (Form.data form)), group,
                    PostForm.clean_image (default ∅ (Form.data form))
                      (default ∅ (Form.files form))
                      (Post.image (Form.instance form)) with
              | Some text, Some g, Some image =>
                  (true,
                   Form.set_errors []
                     (Form.set_instance
                        (PostForm.construct_instance text g image (Form.instance form))
                        form))
              | text, g, image =>
                  (false,
                   Form.set_errors
                     (Form.field_errors "text" text ++ Form.field_errors "group" g
                      ++ Form.field_errors "image" image)%list form)
              end), w').
Proof.
  intros Hbound. unfold PostForm.is_valid. rewrite Hbound. cbv zeta.
  assert (∃ group w', PostForm.clean_group (default ∅ (Form.data form)) w
                      = (inr group, w')
                      ∧ db w' = db w ∧ cache w' = cache w ∧ clock w' = clock w)
    as (group & w' & Hgroup & Hdb & Hcache & Hclock).
  { unfold PostForm.clean_group.
    destruct (default ∅ (Form.data form) !! "group") as [s|]; [|by eexists _, _].
    case_decide; [by eexists _, _|].
    destruct (int s) as [k|]; [|by eexists _, _].
    rewrite bind_query. destruct (filter _ _); by eexists _, _. }
  exists group, w'. rewrite Hgroup. split; [done|]. do 3 (split; [done|]).
  rewrite bind_unfold, Hgroup.
  by destruct (PostForm.clean_text _), group, (PostForm.clean_image _ _ _).
Qed.

(** What [new_post] stores for a valid form. *)
Lemma new_post_stores t request u text g w :
  user request = Some u →
  PostForm.clean_text (POST request) = Some text →
  (PostForm.clean_group (POST request) w).1 = inr (Some g) →
  (serve t NewPost request w).1 = Redirect RIndex
  ∧ posts (db (serve t NewPost request w).2)
    = (posts (db w)
       ++ [Post.Build (Some (post_seq (db w))) text t (Some (User.pk u)) g None])%list
  ∧ post_seq (db (serve t NewPost request w).2) = S (post_seq (db w))
  ∧ comments (db (serve t NewPost request w).2) = comments (db w)
  ∧ follows (db (serve t NewPost request w).2) = follows (db w).
Proof.
  intros Huser Htext Hgroup.
  unfold serve. cbn [dispatch]. unfold new_post, login_required. rewrite Huser.
  rewrite (post_text_not_empty _ _ Htext).
  destruct (post_form_is_valid_bound
              (PostForm.init (Some (POST request)) None None) (at_time t w) eq_refl)
    as (group & w' & Hgroup' & Hdb & _ & Hclock & Hvalid).
  rewrite bind_unfold, Hvalid. clear Hvalid.
  cbn [PostForm.init Form.data Form.files Form.instance default from_option id]
    in Hgroup' |- *.
  rewrite (clean_group_tables _ (at_time t w) w eq_refl), Hgroup in Hgroup'.
  injection Hgroup' as <-. rewrite Htext.
  unfold PostForm.clean_image. rewrite lookup_empty.
  match goal with
  | |- context [if checkbox ?data ?name then ?cleared else ?kept] =>
      replace (if checkbox data name then cleared else kept) with (Some (@None string))
        by (by destruct (checkbox data name))
  end.
  cbn [negb]. unfold PostForm.save, save_post. cbn. rewrite bind_ret.
  unfold mbind, M_bind, now, execute, redirect, mret, M_ret. cbn.
  rewrite Hdb, Hclock. done.
Qed.


(** X4: a valid form sent to [new_post] by an authenticated user stores
    exactly one new post, at the end of the table and under the next key:
    its author is the user of the request, its text and group are the
    cleaned ones, its date is the time of the request and it has no
    image; the other posts, the comments and the follow rows stay, and the
    answer is the redirect to the index. *)
Theorem new_post_creates_post_of_user t request u text g w :
  user request = Some u →
  PostForm.clean_text (POST request) = Some text →
  (PostForm.clean_group (POST request) w).1 = inr (Some g) →
  (serve t NewPost request w).1 = Redirect RIndex
  ∧ posts (db (serve t NewPost request w).2)
    = (posts (db w)
       ++ [Post.Build (Some (post_seq (db w))) text t (Some (User.pk u)) g None])%list
  ∧ post_seq (db (serve t NewPost request w).2) = S (post_seq (db w))
  ∧ comments (db (serve t NewPost request w).2) = comments (db w)
  ∧ follows (db (serve t NewPost request w).2) = follows (db w).
Proof. apply new_post_stores. Qed.


Lemma map_is_fmap {A B} (f : A → B) (l : list A) : map f l = f <$> l.
Proof. induction l as [|x l IH]; [done|]. simpl. by rewrite IH. Qed.

Lemma existsb_same_key (post : Post.t) post_id (l : list Post.t) :
  post ∈ l → Post.pk post = Some post_id →
  existsb (λ q, bool_decide (Post.pk q = Some post_id)) l = true.
Proof.
  intros Hin Hpk. apply existsb_exists. exists post.
  split; [by apply list_elem_of_In|by apply bool_decide_eq_true_2].
Qed.

(** What [post_edit] stores for a valid form of the author. *)
Lemma post_edit_stores
    t username post_id request u post text g image w :
  user request = Some u →
  post_by_pk_author post_id username (db w) = [post] →
  Post.author post = Some (User.pk u) →
  PostForm.clean_text (POST request) = Some text →
  (PostForm.clean_group (POST request) w).1 = inr (Some g) →
  PostForm.clean_image (POST request) (FILES request) (Post.image post) = Some image →
  (serve t (PostEdit username post_id) request w).1
  = Redirect (RPostView username post_id)
  ∧ posts (db (serve t (PostEdit username post_id) request w).2)
    = (λ q, if bool_decide (Post.pk q = Some post_id)
            then Post.Build (Some post_id) text (Post.pub_date post)
                   (Post.author post) g image
            else q) <$> posts (db w)
  ∧ post_seq (db (serve t (PostEdit username post_id) request w).2) = post_seq (db w)
  ∧ comments (db (serve t (PostEdit username post_id) request w).2) = comments (db w)
  ∧ follows (db (serve t (PostEdit username post_id) request w).2) = follows (db w).
Proof.
  intros Huser Hpost Hauthor Htext Hgroup Himage.
  assert (post ∈ posts (db w) ∧ Post.pk post = Some post_id) as [Hin Hpk].
  { assert (post ∈ post_by_pk_author post_id username (db w)) as Hp
      by (rewrite Hpost; apply list_elem_of_here).
    unfold post_by_pk_author in Hp.
    by apply list_elem_of_filter in Hp as [[? _] ?]. }
  unfold serve. cbn [dispatch]. unfold post_edit, login_required. rewrite Huser.
  rewrite (bind_get_object _ _ (at_time t w) _ Hpost).
  rewrite bool_decide_eq_false_2 by (rewrite Hauthor; by intros ?).
  rewrite (post_text_not_empty _ _ Htext).
  destruct (post_form_is_valid_bound
              (PostForm.init (Some (POST request)) (or_None (FILES request)) (Some post))
              (tick (at_time t w)))
    as (group & w' & Hgroup' & Hdb & _ & _ & Hvalid).
  { unfold Form.is_bound. cbn [PostForm.init Form.data].
    by rewrite bool_decide_eq_true_2. }
  rewrite bind_unfold, Hvalid. clear Hvalid.
  cbn [PostForm.init Form.data Form.files Form.instance default from_option id]
    in Hgroup' |- *.
  rewrite (clean_group_tables _ (tick (at_time t w)) w eq_refl), Hgroup in Hgroup'.
  injection Hgroup' as <-. rewrite Htext.
  change (from_option id ∅ (or_None (FILES request)))
    with (default ∅ (or_None (FILES request))).
  rewrite default_or_None, Himage.
  cbn [negb]. unfold PostForm.save, save_post. cbn. rewrite Hauthor, Hpk.
  unfold mbind, M_bind, now, execute, redirect, mret, M_ret. cbn.
  unfold replace_row. rewrite Hdb. cbn [db tick at_time].
  rewrite (existsb_same_key post post_id _ Hin Hpk).
  rewrite map_is_fmap. unfold PostForm.construct_instance.
  by rewrite Hpk, Hauthor.
Qed.


(** X6: a valid form sent to [post_edit] by the author of the post
    rewrites that post in place: text, group and image are the ones that
    the form has cleaned, while key, author and date stay; the other
    posts, the number of posts, the comments and the follow rows stay too,
    and the answer is the redirect to the post. *)
Theorem post_edit_by_author_updates_in_place
    t username post_id request u post text g image w :
  user request = Some u →
  post_by_pk_author post_id username (db w) = [post] →
  Post.author post = Some (User.pk u) →
  PostForm.clean_text (POST request) = Some text →
  (PostForm.clean_group (POST request) w).1 = inr (Some g) →
  PostForm.clean_image (POST request) (FILES request) (Post.image post) = Some image →
  (serve t (PostEdit username post_id) request w).1
  = Redirect (RPostView username post_id)
  ∧ posts (db (serve t (PostEdit username post_id) request w).2)
    = (λ q, if bool_decide (Post.pk q = Some post_id)
            then Post.Build (Some post_id) text (Post.pub_date post)
                   (Post.author post) g image
            else q) <$> posts (db w)
  ∧ post_seq (db (serve t (PostEdit username post_id) request w).2) = post_seq (db w)
  ∧ comments (db (serve t (PostEdit username post_id) request w).2) = comments (db w)
  ∧ follows (db (serve t (PostEdit username post_id) request w).2) = follows (db w).
Proof. apply post_edit_stores. Qed.

(** X7: whoever sends it and whatever it carries, a request to
    [post_edit] never adds or removes a post and never touches a post
    with another key: either the posts stay as they are, or the requesting
    user is the author and the posts of the key of the URL are replaced by
    one with that same key and that same author. *)
Theorem post_edit_touches_only_its_post t username post_id request w :
  posts (db (serve t (PostEdit username post_id) request w).2) = posts (db w)
  ∨ ∃ u p,
      user request = Some u
      ∧ Post.pk p = Some post_id
      ∧ Post.author p = Some (User.pk u)
      ∧ posts (db (serve t (PostEdit username post_id) request w).2)
        = (λ q, if bool_decide (Post.pk q = Some post_id) then p else q)
          <$> posts (db w).
Proof.
  unfold serve. cbn [dispatch]. unfold post_edit, login_required.
  destruct (user request) as [u|] eqn:Huser; [|by left].
  rewrite bind_get_object_cases. cbn [at_time db].
  destruct (post_by_pk_author post_id username (db w)) as [|post [|other rest]]
    eqn:Hpost; [by left| |by left].
  assert (post ∈ posts (db w) ∧ Post.pk post = Some post_id) as [Hin Hpk].
  { assert (post ∈ post_by_pk_author post_id username (db w)) as Hp
      by (rewrite Hpost; apply list_elem_of_here).
    unfold post_by_pk_author in Hp.
    by apply list_elem_of_filter in Hp as [[? _] ?]. }
  case_bool_decide as Hauthor; [by left|].
  set (form := PostForm.init _ _ _).
  destruct (Form.is_bound form) eqn:Hbound.
  - destruct (post_form_is_valid_bound form (tick (at_time t w)) Hbound)
      as (group & w' & _ & Hdb & _ & _ & Hvalid).
    rewrite bind_unfold, Hvalid. clear Hvalid.
    destruct (PostForm.clean_text _) as [text|], group as [g|],
      (PostForm.clean_image _ _ _) as [image|];
      try (left; exact (f_equal posts Hdb)).
    right. exists u, (PostForm.construct_instance text g image post).
    split; [done|]. split; [exact Hpk|]. split; [by symmetry|].
    cbn [negb]. unfold PostForm.save, save_post. cbn. rewrite <- Hauthor, Hpk.
    unfold mbind, M_bind, now, execute, redirect, mret, M_ret. cbn.
    unfold replace_row. rewrite Hdb. cbn [db tick at_time].
    rewrite (existsb_same_key post post_id _ Hin Hpk).
    by rewrite map_is_fmap.
  - left. unfold PostForm.is_valid. by rewrite bind_unfold, Hbound.
Qed.

End Posting.

(** ** Unfollowing, and following again *)

Section Unfollowing.
Context `{ImageDecoder} `{Storage} `{PythonInt}.
Implicit Types (w : World) (request : Request) (t : Z) (d : DB).

Lemma filter_neg_of_none {A} (P : A → Prop) `{∀ x, Decision (P x)} (l : list A) :
  filter P l = [] → filter (λ x, ¬ P x) l = l.
Proof.
  induction l as [|x l IH]; [done|]. rewrite !filter_cons.
  destruct (decide (P x)) as [HP|HP]; [done|]. intros Hnone.
  rewrite decide_True by done. by rewrite IH.
Qed.

Lemma filter_of_filter_neg {A} (P : A → Prop) `{∀ x, Decision (P x)} (l : list A) :
  filter P (filter (λ x, ¬ P x) l) = [].
Proof.
  induction l as [|x l IH]; [done|]. rewrite filter_cons.
  destruct (decide (¬ P x)) as [HP|HP]; [|done].
  rewrite filter_cons. by rewrite decide_False.
Qed.

Lemma profile_unfollow_response t username request u author w :
  user request = Some u →
  user_by_username username (db w) = [author] →
  (serve t (ProfileUnfollow username) request w).1 = Redirect (RProfile username).
Proof.
  intros Huser Hauthor. unfold serve. cbn [dispatch].
  unfold profile_unfollow, login_required. rewrite Huser.
  by rewrite (bind_get_object _ _ (at_time t w) _ Hauthor).
Qed.

(** X9: [profile_unfollow] by an authenticated user deletes every row
    from that user to the named user and no other row; the posts and the
    comments stay, and the answer is the redirect to the profile. *)
Theorem profile_unfollow_deletes_the_pair t username request u author w :
  user request = Some u →
  user_by_username username (db w) = [author] →
  (serve t (ProfileUnfollow username) request w).1 = Redirect (RProfile username)
  ∧ follow_rows u author (db (serve t (ProfileUnfollow username) request w).2) = []
  ∧ (∀ f, f ∈ follows (db (serve t (ProfileUnfollow username) request w).2)
          ↔ f ∈ follows (db w)
            ∧ ¬ (Follow.user f = User.pk u ∧ Follow.author f = User.pk author))
  ∧ posts (db (serve t (ProfileUnfollow username) request w).2) = posts (db w)
  ∧ comments (db (serve t (ProfileUnfollow username) request w).2) = comments (db w).
Proof.
  intros Huser Hauthor.
  split; [by eapply profile_unfollow_response|].
  rewrite serve_profile_unfollow_db. unfold profile_unfollow_db.
  rewrite Huser, Hauthor. unfold follow_rows. cbn [set_follows follows posts comments].
  split; [apply filter_of_filter_neg|]. split; [|done].
  intros f. rewrite list_elem_of_filter. tauto.
Qed.

(** X10: for a user who does not follow the named user, [profile_follow]
    and then [profile_unfollow] leave the [Follow] table as it was. *)
Theorem follow_then_unfollow_restores_table t t' username request u author w :
  user request = Some u →
  user_by_username username (db w) = [author] →
  follow_rows u author (db w) = [] →
  follows (db (serve t' (ProfileUnfollow username) request
                 (serve t (ProfileFollow username) request w).2).2)
  = follows (db w).
Proof.
  intros Huser Hauthor Hnone.
  rewrite serve_profile_unfollow_db, serve_profile_follow_db.
  unfold profile_follow_db. rewrite Huser, Hauthor.
  case_bool_decide as Hnew.
  - unfold profile_unfollow_db. rewrite Huser.
    replace (user_by_username username (set_follows _ _ (db w))) with [author] by done.
    cbn [set_follows follows]. rewrite filter_app.
    rewrite (filter_neg_of_none _ _ Hnone).
    rewrite filter_cons_False by (intros Hnot; by apply Hnot).
    by rewrite filter_nil, app_nil_r.
  - unfold profile_unfollow_db. rewrite Huser, Hauthor. cbn [set_follows follows].
    by apply filter_neg_of_none.
Qed.

(** X11: whatever rows the table held before, also several for the same
    pair, [profile_unfollow] and then [profile_follow] by a user other
    than the named one leave exactly one row from the user to the named
    user. *)
Theorem unfollow_then_follow_leaves_one_row t t' username request u author w :
  user request = Some u →
  user_by_username username (db w) = [author] →
  User.pk u ≠ User.pk author →
  follow_rows u author
    (db (serve t' (ProfileFollow username) request
           (serve t (ProfileUnfollow username) request w).2).2)
  = [Follow.Build (follow_seq (db w)) (User.pk u) (User.pk author)].
Proof.
  intros Huser Hauthor Hother.
  rewrite serve_profile_follow_db, serve_profile_unfollow_db.
  unfold profile_unfollow_db. rewrite Huser, Hauthor.
  unfold profile_follow_db. rewrite Huser.
  replace (user_by_username username (set_follows _ _ (db w))) with [author] by done.
  assert (follow_rows u author
            (set_follows
               (filter (λ f, ¬ (Follow.user f = User.pk u
                                ∧ Follow.author f = User.pk author)) (follows (db w)))
               (follow_seq (db w)) (db w)) = []) as Hnone
    by apply filter_of_filter_neg.
  rewrite bool_decide_eq_true_2 by done.
  unfold follow_rows in *. cbn [set_follows follows follow_seq] in *.
  rewrite filter_app, Hnone. by rewrite filter_cons_True.
Qed.

(** X21: [profile_follow] by an authenticated user who is not the named
    user and does not follow them yet adds exactly one row, from the user
    to the named user, at the end of the [Follow] table; the posts and
    the comments stay, and the answer is the redirect to the profile. *)
Theorem profile_follow_adds_the_row t username request u author w :
  user request = Some u →
  user_by_username username (db w) = [author] →
  User.pk u ≠ User.pk author →
  follow_rows u author (db w) = [] →
  (serve t (ProfileFollow username) request w).1 = Redirect (RProfile username)
  ∧ follows (db (serve t (ProfileFollow username) request w).2)
    = (follows (db w)
       ++ [Follow.Build (follow_seq (db w)) (User.pk u) (User.pk author)])%list
  ∧ posts (db (serve t (ProfileFollow username) request w).2) = posts (db w)
  ∧ comments (db (serve t (ProfileFollow username) request w).2) = comments (db w).
Proof.
  intros Huser Hauthor Hother Hnone. split.
  - unfold serve. cbn [dispatch]. unfold profile_follow, login_required. rewrite Huser.
    rewrite (bind_get_object _ _ (at_time t w) _ Hauthor). rewrite bind_query.
    by destruct (_ && _).
  - rewrite serve_profile_follow_db. unfold profile_follow_db.
    rewrite Huser, Hauthor. by rewrite bool_decide_eq_true_2.
Qed.
End Unfollowing.

(** ** What the listing pages show *)

Section Listings.
Context `{ImageDecoder} `{Storage} `{PythonInt}.
Implicit Types (w : World) (request : Request) (t : Z) (d : DB) (p : Post.t).

Lemma bind_assoc {A B C} (m : M A) (f : A → M B) (g : B → M C) w :
  ((m ≫= f) ≫= g) w = (m ≫= λ x, f x ≫= g) w.
Proof. rewrite !bind_unfold. by destruct (m w) as [[e|x] w']. Qed.

Lemma follow_index_paginator t request u me w :
  user request = Some u →
  user_by_username (User.username u) (db w) = [me] →
  paginator_of (serve t FollowIndex request w).1
  = Some (Paginator.make (newest_first (followed_posts u (db w))) 10).
Proof.
  intros Huser Hme. unfold serve. cbn [dispatch].
  unfold follow_index, login_required. rewrite Huser.
  rewrite (bind_get_object _ _ (at_time t w) _ Hme).
  rewrite bind_query. cbv zeta. unfold get_page.
  destruct (get_page_make_returns
              (newest_first (followed_posts u (db (tick (at_time t w)))))
              (GET request !! "page")) as (page & -> & _).
  rewrite bind_ret. unfold render, paginator_of. cbn [mret M_ret fst context_of].
  by simplify_map_eq.
Qed.

(** X12: once a user has called [profile_follow] for an author other
    than themselves, every post of that author is in the feed of
    [follow_index] for that user; once the user has called
    [profile_unfollow], no post of that author is. *)
Theorem follow_and_unfollow_fill_and_empty_the_feed
    t1 t2 t3 username request visit u me author w :
  user request = Some u →
  user visit = Some u →
  user_by_username username (db w) = [author] →
  user_by_username (User.username u) (db w) = [me] →
  User.pk u ≠ User.pk author →
  let w1 := (serve t1 (ProfileFollow username) request w).2 in
  let w2 := (serve t2 (ProfileUnfollow username) request w1).2 in
  (∃ feed, paginator_of (serve t3 FollowIndex visit w1).1 = Some feed
           ∧ ∀ p, p ∈ posts (db w) → Post.author p = Some (User.pk author) →
                  p ∈ Paginator.object_list feed)
  ∧ (∃ feed, paginator_of (serve t3 FollowIndex visit w2).1 = Some feed
             ∧ ∀ p, p ∈ Paginator.object_list feed →
                    Post.author p ≠ Some (User.pk author)).
Proof.
  intros Huser Hvisit Hauthor Hme Hother w1 w2.
  assert (db w1 = profile_follow_db request username (db w)) as Hw1
    by apply serve_profile_follow_db.
  assert (db w2 = profile_unfollow_db request username (db w1)) as Hw2
    by apply serve_profile_unfollow_db.
  assert (users (db w1) = users (db w) ∧ posts (db w1) = posts (db w)
          ∧ follows_author u (User.pk author) (db w1)) as (Husers1 & Hposts1 & Hfollows).
  { rewrite Hw1. unfold profile_follow_db. rewrite Huser, Hauthor.
    case_bool_decide as Hnew.
    - split; [done|]. split; [done|].
      exists (Follow.Build (follow_seq (db w)) (User.pk u) (User.pk author)).
      split; [|done].
      cbn [set_follows follows]. apply elem_of_app. right. apply list_elem_of_here.
    - split; [done|]. split; [done|].
      assert (follow_rows u author (db w) ≠ []) as Hsome by tauto.
      destruct (follow_rows u author (db w)) as [|f rest] eqn:Hrows; [done|].
      assert (f ∈ follow_rows u author (db w)) as Hf
        by (rewrite Hrows; apply list_elem_of_here).
      unfold follow_rows in Hf. apply list_elem_of_filter in Hf as [[? ?] ?].
      by exists f. }
  assert (user_by_username username (db w1) = [author]) as Hauthor1
    by (unfold user_by_username; by rewrite Husers1).
  assert (users (db w2) = users (db w) ∧ posts (db w2) = posts (db w)
          ∧ ¬ follows_author u (User.pk author) (db w2)) as (Husers2 & Hposts2 & Hnot).
  { rewrite Hw2. unfold profile_unfollow_db. rewrite Huser, Hauthor1.
    split; [done|]. split; [done|].
    intros (f & Hf & Hfu & Hfa). cbn [set_follows follows] in Hf.
    apply list_elem_of_filter in Hf as [Hno _]. by apply Hno. }
  split.
  - rewrite (follow_index_paginator t3 visit u me w1 Hvisit)
      by (unfold user_by_username; by rewrite Husers1).
    eexists. split; [reflexivity|]. intros p Hp Hby.
    cbn [Paginator.object_list Paginator.make].
    apply elem_of_newest_first, elem_of_followed_posts.
    rewrite Hposts1. split; [done|]. by exists (User.pk author).
  - rewrite (follow_index_paginator t3 visit u me w2 Hvisit)
      by (unfold user_by_username; by rewrite Husers2).
    eexists. split; [reflexivity|]. intros p Hp Hby.
    cbn [Paginator.object_list Paginator.make] in Hp.
    apply elem_of_newest_first, elem_of_followed_posts in Hp
      as (_ & a & Ha & Hfollowed).
    rewrite Hby in Ha. injection Ha as <-. by apply Hnot.
Qed.

(** X13: for a slug that names a group, [group_posts] renders the group
    and the list of exactly the posts of that group; the page shown is
    the page of that list that [get_page] gives for the [page] parameter
    of the request, and is part of that list. *)
Theorem group_posts_lists_the_group t slug request group w :
  group_by_slug slug (db w) = [group] →
  ∃ context page paginator,
    (serve t (GroupPosts slug) request w).1 = Render "group.html" context 200
    ∧ context !! "group" = Some (VGroup group)
    ∧ context !! "page" = Some (VPage page)
    ∧ context !! "paginator" = Some (VPaginator paginator)
    ∧ Paginator.get_page paginator (GET request !! "page") = inr page
    ∧ (∀ p, p ∈ Paginator.object_list paginator
            ↔ p ∈ posts (db w) ∧ Post.group p = Some (Group.pk group))
    ∧ (∀ p, p ∈ Paginator.page_object_list page → p ∈ Paginator.object_list paginator).
Proof.
  intros Hgroup. unfold serve. cbn [dispatch]. unfold group_posts.
  rewrite (bind_get_object _ _ (at_time t w) _ Hgroup).
  rewrite bind_query. cbv zeta. unfold get_page.
  destruct (get_page_make_returns
              (newest_first (group_posts_of group (db (tick (at_time t w)))))
              (GET request !! "page")) as (page & Hget & Hpage).
  rewrite Hget, bind_ret. unfold render. cbn [mret M_ret fst].
  eexists _, page, _. split; [reflexivity|].
  do 3 (split; [by simplify_map_eq|]). split; [exact Hget|].
  cbn [Paginator.object_list Paginator.make]. split; [|exact Hpage].
  intros p. rewrite elem_of_newest_first. unfold group_posts_of.
  rewrite list_elem_of_filter. cbn [db tick at_time]. tauto.
Qed.

(** X14: for a name that names a user, [profile] renders that user, the
    list of exactly their posts, the page of that list that [get_page]
    gives for the [page] parameter of the request, the number of those
    posts, and whether the viewer follows them: [following] is true
    exactly when the viewer is authenticated and the [Follow] table holds
    a row from the viewer to that user. *)
Theorem profile_shows_posts_count_and_following t username request author w :
  user_by_username username (db w) = [author] →
  ∃ context page paginator,
    (serve t (Profile username) request w).1 = Render "profile.html" context 200
    ∧ context !! "author" = Some (VUser author)
    ∧ context !! "page" = Some (VPage page)
    ∧ context !! "paginator" = Some (VPaginator paginator)
    ∧ Paginator.get_page paginator (GET request !! "page") = inr page
    ∧ (∀ p, p ∈ Paginator.object_list paginator
            ↔ p ∈ posts (db w) ∧ Post.author p = Some (User.pk author))
    ∧ context !! "count_posts"
      = Some (VInt (Z.of_nat (length (author_posts author (db w)))))
    ∧ context !! "following"
      = Some (VBool (match user request with
                     | Some viewer => bool_decide (follow_rows viewer author (db w) ≠ [])
                     | None => false
                     end)).
Proof.
  intros Hauthor. unfold serve. cbn [dispatch]. unfold profile.
  rewrite (bind_get_object _ _ (at_time t w) _ Hauthor).
  assert (length (newest_first (author_posts author (db w)))
          = length (author_posts author (db w))) as Hlength.
  { by rewrite newest_first_Permutation. }
  destruct (user request) as [viewer|].
  - rewrite bind_assoc, bind_query, bind_ret, bind_query. cbv zeta. unfold get_page.
    cbn [db tick at_time].
    destruct (get_page_make_returns
                (newest_first (author_posts author (db w)))
                (GET request !! "page")) as (page & Hget & Hpage).
    rewrite Hget, bind_ret. unfold render. cbn [mret M_ret fst].
    eexists _, page, _. split; [reflexivity|].
    do 3 (split; [by simplify_map_eq|]). split; [exact Hget|].
    cbn [Paginator.object_list Paginator.make]. split; [|rewrite Hlength; by simplify_map_eq].
    intros p. rewrite elem_of_newest_first. unfold author_posts.
    rewrite list_elem_of_filter. tauto.
  - rewrite bind_ret, bind_query. cbv zeta. unfold get_page.
    cbn [db tick at_time].
    destruct (get_page_make_returns
                (newest_first (author_posts author (db w)))
                (GET request !! "page")) as (page & Hget & Hpage).
    rewrite Hget, bind_ret. unfold render. cbn [mret M_ret fst].
    eexists _, page, _. split; [reflexivity|].
    do 3 (split; [by simplify_map_eq|]). split; [exact Hget|].
    cbn [Paginator.object_list Paginator.make]. split; [|rewrite Hlength; by simplify_map_eq].
    intros p. rewrite elem_of_newest_first. unfold author_posts.
    rewrite list_elem_of_filter. tauto.
Qed.
End Listings.

(** ** The pages of a list *)

Section Pages.
Context {A : Type}.
Implicit Types (l : list A) (n : Z).

Lemma page_items_in_range l n :
  1 ≤ n ≤ Paginator.num_pages (Paginator.make l 10) →
  page_items (Paginator.make l 10) n = take 10 (drop (Z.to_nat ((n - 1) * 10)) l).
Proof. intros Hn. unfold page_items. by rewrite page_in_range. Qed.

Lemma concat_chunks (k : nat) l :
  (length l ≤ 10 * k)%nat →
  concat ((λ i : nat, take 10 (drop (10 * i) l)) <$> seq 0 k) = l.
Proof.
  revert l. induction k as [|k IH]; intros l Hlen.
  - destruct l; [done|]. simpl in Hlen. lia.
  - cbn [seq]. rewrite fmap_cons. cbn [concat]. rewrite <- fmap_S_seq.
    rewrite <- list_fmap_compose.
    rewrite (list_fmap_ext _ (λ i : nat, take 10 (drop (10 * i) (drop 10 l)))).
    + rewrite IH by (rewrite length_drop; lia).
      replace (10 * 0)%nat with 0%nat by lia. cbn [drop]. apply take_drop.
    + intros i x _. cbn [compose]. rewrite drop_drop. do 2 f_equal. lia.
Qed.

Lemma all_pages_chunks l :
  all_pages (Paginator.make l 10)
  = (λ i : nat, take 10 (drop (10 * i) l))
    <$> seq 0 (Z.to_nat (Paginator.num_pages (Paginator.make l 10))).
Proof.
  unfold all_pages, seqZ. rewrite <- list_fmap_compose.
  apply list_fmap_ext. intros i x Hi%lookup_seq.
  cbn [compose]. rewrite page_items_in_range by lia. do 2 f_equal. lia.
Qed.

(** X15: the pages of [Paginator(l, 10)] split the list: page 1 to the
    last page one after the other give the list back, every page before
    the last holds exactly 10 items, and the last page of a list that is
    not empty is not empty. *)
Theorem pages_split_the_list l :
  let p := Paginator.make l 10 in
  concat (all_pages p) = l
  ∧ (∀ n, 1 ≤ n < Paginator.num_pages p → length (page_items p n) = 10%nat)
  ∧ (l ≠ [] → page_items p (Paginator.num_pages p) ≠ []).
Proof.
  intros p. subst p.
  pose proof (num_pages_bounds l) as Hbounds. cbv zeta in Hbounds.
  pose proof (num_pages_positive l) as Hpos.
  split; [|split].
  - rewrite all_pages_chunks. apply concat_chunks. lia.
  - intros n Hn. rewrite page_items_in_range by lia.
    rewrite length_take, length_drop. lia.
  - intros Hne. rewrite page_items_in_range by lia.
    assert (0 < length l)%nat by (destruct l; [done|simpl; lia]).
    intros Hnil%(f_equal length). rewrite length_take, length_drop in Hnil.
    cbn [length] in Hnil. lia.
Qed.
End Pages.

(** ** The age of the cached index page *)

Section CacheAge.
Context `{ImageDecoder} `{Storage} `{PythonInt}.
Implicit Types (w : World) (request : Request) (t : Z) (k : CacheKey) (e : CacheEntry).

(** What the body of [index] renders, and the state it leaves: the
    tables as they were, and the store queried. *)
Lemma index_uncached_response request w :
  ∃ page w',
    Paginator.get_page (Paginator.make (newest_first (posts (db w))) 10)
      (GET request !! "page") = inr page
    ∧ index_uncached request w
      = (inr (Render "index.html"
                {[ "page" := VPage page;
                   "paginator" :=
                     VPaginator (Paginator.make (newest_first (posts (db w))) 10) ]}
                200),
         w')
    ∧ db w' = db w
    ∧ (queries w < queries w')%nat.
Proof.
  destruct (get_page_make_returns (newest_first (posts (db w))) (GET request !! "page"))
    as (page & Hpage & _).
  exists page, (tick w). split; [exact Hpage|].
  unfold index_uncached. rewrite bind_query. cbv zeta. unfold get_page.
  rewrite Hpage. split; [done|]. split; [done|]. cbn [tick queries]. lia.
Qed.

(** X16: a [GET] request to [index] for which the cache holds no
    unexpired response is answered from the tables: the list of the page
    holds every post of the table, each once, the page shown is the one
    that [get_page] gives for the [page] parameter, and no table
    changes. *)
Theorem index_miss_lists_every_post t request w :
  method request = "GET" →
  ¬ cached_at (cache_key "index_page" "GET" request) t w →
  ∃ context page paginator,
    (serve t Index request w).1 = Render "index.html" context 200
    ∧ context !! "paginator" = Some (VPaginator paginator)
    ∧ context !! "page" = Some (VPage page)
    ∧ Paginator.object_list paginator ≡ₚ posts (db w)
    ∧ Paginator.get_page paginator (GET request !! "page") = inr page
    ∧ db (serve t Index request w).2 = db w.
Proof.
  intros Hmethod Hmiss. unfold serve. cbn [dispatch]. unfold index.
  destruct (index_uncached_response request (at_time t w))
    as (page & w' & Hpage & Hview & Hdb & _).
  rewrite (cache_page_miss 20 "index_page" index_uncached request _ (at_time t w) _
             Hmethod Hmiss Hview eq_refl).
  cbn [fst snd db].
  eexists _, page, _. split; [reflexivity|].
  do 2 (split; [by simplify_map_eq|]).
  cbn [Paginator.object_list Paginator.make].
  split; [apply newest_first_Permutation|]. split; [exact Hpage|exact Hdb].
Qed.

Lemma cache_page_stores_for_timeout timeout key_prefix (view : View) request w :
  (∀ w, cache (view request w).2 = cache w ∧ clock (view request w).2 = clock w) →
  cache (cache_page timeout key_prefix view request w).2 = cache w
  ∨ ∃ k r,
      cache (cache_page timeout key_prefix view request w).2
      = <[k := {| expires := clock w + timeout; cached := r |}]> (cache w).
Proof.
  intros Hview. unfold cache_page.
  case_bool_decide as Hmethod; [|left; apply Hview].
  rewrite bind_unfold.
  destruct (cache_get_result (cache_key key_prefix "GET" request) w) as [[r|] Hget];
    rewrite Hget; [by left|].
  rewrite bind_unfold.
  assert (∃ hit' : option Response,
            (if bool_decide (method request = "HEAD")
             then cache_get (cache_key key_prefix "HEAD" request)
             else mret None) w = (inr hit', w)) as [hit' Hsecond].
  { case_bool_decide; [apply cache_get_result|by exists None]. }
  rewrite Hsecond. destruct hit' as [r|]; [by left|].
  rewrite bind_unfold. destruct (Hview w) as [Hcache Hclock].
  destruct (view request w) as [[err|response] w']; cbn [snd] in Hcache, Hclock;
    [left; exact Hcache|].
  destruct (status_code response =? 200); [|left; exact Hcache].
  right. eexists _, _. rewrite bind_unfold. unfold cache_set, mret, M_ret.
  cbn [snd cache]. by rewrite Hcache, Hclock.
Qed.

Lemma other_handlers_keep_cache t c request w :
  c ≠ Index → cache (serve t c request w).2 = cache w.
Proof.
  intros Hc. apply (serve_frame same_cache t c request w).
  destruct c; [done|..]; cbn [dispatch].
  - apply group_posts_frame, _.
  - apply new_post_frame; [apply _|apply same_cache_writes_posts].
  - apply profile_frame, _.
  - apply post_view_frame, _.
  - apply post_edit_frame; [apply _|apply same_cache_writes_posts].
  - apply add_comment_frame; [apply _|apply same_cache_writes_comments].
  - apply follow_index_frame, _.
  - apply profile_follow_frame; [apply _|apply same_cache_writes_follows].
  - apply profile_unfollow_frame; [apply _|apply same_cache_writes_follows].
Qed.

Lemma serve_expires_by T t c request w :
  expires_by T w → t + 20 ≤ T → expires_by T (serve t c request w).2.
Proof.
  intros Hby Ht.
  assert (c = Index ∨ c ≠ Index) as [->|Hc] by (destruct c; auto).
  - assert (cache (serve t Index request w).2 = cache w
            ∨ ∃ k r, cache (serve t Index request w).2
                     = <[k := {| expires := t + 20; cached := r |}]> (cache w))
      as [Hsame|(k & r & Hstored)].
    { pose proof (cache_page_stores_for_timeout 20 "index_page" index_uncached request
                    (at_time t w) (index_uncached_keeps_cache request)) as Hcases.
      unfold serve. cbn [dispatch]. unfold index.
      destruct (cache_page 20 "index_page" index_uncached request (at_time t w))
        as [[err|r] w']; [|exact Hcases].
      by destruct err. }
    + intros k e. rewrite Hsame. apply Hby.
    + intros k' e. rewrite Hstored, lookup_insert.
      case_decide; [|apply Hby]. intros [= <-]. exact Ht.
  - intros k e. rewrite other_handlers_keep_cache by done. apply Hby.
Qed.

Lemma run_expires_by T (trace : list Event) w :
  Forall (λ ev : Event, ev.1.1 + 20 ≤ T) trace →
  expires_by T w → expires_by T (run trace w).
Proof.
  intros Htrace. revert w. induction Htrace as [|ev trace Hev _ IH]; intros w Hby.
  - done.
  - unfold run. cbn [foldl]. apply IH. unfold serve_event.
    by apply serve_expires_by.
Qed.

(** X17: the index page is never served from a response older than 20
    seconds: when every response in the cache expires within 20 seconds
    of a time [T] and the requests since were served by time [T], a [GET]
    request to [index] at [T + 20] or later runs the view, which queries
    the store, and shows the posts of the table as they are then: the
    list of the page holds every post of the table, each once, and the
    page shown is the one that [get_page] gives for the [page]
    parameter. *)
Theorem index_never_older_than_20_seconds T t request (trace : list Event) w :
  method request = "GET" →
  expires_by (T + 20) w →
  Forall (λ ev : Event, ev.1.1 ≤ T) trace →
  T + 20 ≤ t →
  let w' := run trace w in
  ∃ context page paginator,
    (serve t Index request w').1 = Render "index.html" context 200
    ∧ context !! "paginator" = Some (VPaginator paginator)
    ∧ context !! "page" = Some (VPage page)
    ∧ Paginator.object_list paginator ≡ₚ posts (db w')
    ∧ Paginator.get_page paginator (GET request !! "page") = inr page
    ∧ (queries w' < queries (serve t Index request w').2)%nat.
Proof.
  intros Hmethod Hby Htrace Ht w'.
  assert (Forall (λ ev : Event, ev.1.1 + 20 ≤ T + 20) trace) as Htrace'
    by (apply (Forall_impl _ _ _ Htrace); intros ev Hev; lia).
  pose proof (run_expires_by (T + 20) trace w Htrace' Hby) as Hby'. fold w' in Hby'.
  assert (¬ cached_at (cache_key "index_page" "GET" request) t w') as Hmiss.
  { intros (e & He & Hfresh). specialize (Hby' _ _ He). lia. }
  unfold serve. cbn [dispatch]. unfold index.
  destruct (index_uncached_response request (at_time t w'))
    as (page & w'' & Hpage & Hview & _ & Hqueries).
  rewrite (cache_page_miss 20 "index_page" index_uncached request _ (at_time t w') _
             Hmethod Hmiss Hview eq_refl).
  cbn [fst snd db queries].
  eexists _, page, _. split; [reflexivity|].
  do 2 (split; [by simplify_map_eq|]).
  cbn [Paginator.object_list Paginator.make].
  split; [apply newest_first_Permutation|]. split; [exact Hpage|exact Hqueries].
Qed.
End CacheAge.

(** ** What is stored shows on the pages *)

Section Shown.
Context `{ImageDecoder} `{Storage} `{PythonInt}.
Implicit Types (w : World) (request : Request) (t : Z) (d : DB) (p : Post.t).

Lemma profile_paginator t username request author w :
  user_by_username username (db w) = [author] →
  paginator_of (serve t (Profile username) request w).1
  = Some (Paginator.make (newest_first (author_posts author (db w))) 10).
Proof.
  intros Hauthor. unfold serve. cbn [dispatch]. unfold profile.
  rewrite (bind_get_object _ _ (at_time t w) _ Hauthor).
  assert (∀ following w',
            db w' = db w →
            paginator_of
              (let (s, w'') :=
                 (query (λ d, newest_first (author_posts author d)) ≫= λ post_list,
                    let count_posts := Z.of_nat (length post_list) in
                    let paginator := Paginator.make post_list 10 in
                    let page_number := GET request !! "page" in
                    get_page paginator page_number ≫= λ page,
                      render "profile.html"
                        {[ "author" := VUser author; "page" := VPage page;
                           "paginator" := VPaginator paginator;
                           "count_posts" := VInt count_posts;
                           "profile" := VUser author;
                           "following" := VBool following ]}) w' in
               match s with
               | inl e =>
                   let (s0, w''') := handler e request w'' in
                   match s0 with
                   | inl _ => (Render "misc/500.html" ∅ 500, w''')
                   | inr response => (response, w''')
                   end
               | inr response => (response, w'')
               end).1
            = Some (Paginator.make (newest_first (author_posts author (db w))) 10))
    as Hrest.
  { intros following w' Hdb. rewrite bind_query, Hdb. cbv zeta. unfold get_page.
    destruct (get_page_make_returns (newest_first (author_posts author (db w)))
                (GET request !! "page")) as (page & -> & _).
    rewrite bind_ret. unfold render, paginator_of. cbn [mret M_ret fst context_of].
    by simplify_map_eq. }
  destruct (user request) as [viewer|].
  - rewrite bind_assoc, bind_query, bind_ret. by apply Hrest.
  - rewrite bind_ret. by apply Hrest.
Qed.

Lemma filter_key_none (P : Post.t → Prop) `{∀ q, Decision (P q)} post_id
    (l : list Post.t) :
  Forall (λ q, Post.pk q ≠ Some post_id) l →
  filter (λ q, Post.pk q = Some post_id ∧ P q) l = [].
Proof.
  induction 1 as [|q l Hq _ IH]; [done|].
  rewrite filter_cons_False by tauto. exact IH.
Qed.

(** X18: a post that [new_post] has stored under a key that no post had
    shows where its author's posts are listed: it is in the list of the
    index (when the index is not served from the cache), in the list of
    the profile of its author, and [post_view] for the name of its author
    and its key renders it. *)
Theorem new_post_shows_on_the_pages t t' request visit u text g w :
  user request = Some u →
  user_by_username (User.username u) (db w) = [u] →
  PostForm.clean_text (POST request) = Some text →
  (PostForm.clean_group (POST request) w).1 = inr (Some g) →
  Forall (λ p, Post.pk p ≠ Some (post_seq (db w))) (posts (db w)) →
  let new := Post.Build (Some (post_seq (db w))) text t (Some (User.pk u)) g None in
  let w1 := (serve t NewPost request w).2 in
  (method visit = "GET" → ¬ cached_at (cache_key "index_page" "GET" visit) t' w1 →
   ∃ list, paginator_of (serve t' Index visit w1).1 = Some list
           ∧ new ∈ Paginator.object_list list)
  ∧ (∃ list, paginator_of (serve t' (Profile (User.username u)) visit w1).1 = Some list
             ∧ new ∈ Paginator.object_list list)
  ∧ (∃ context,
       (serve t' (PostView (User.username u) (post_seq (db w))) visit w1).1
       = Render "post_view.html" context 200
       ∧ context !! "post" = Some (VPost new)).
Proof.
  intros Huser Hme Htext Hgroup Hfresh new w1.
  destruct (new_post_stores t request u text g w Huser Htext Hgroup)
    as (_ & Hposts & _ & _ & _).
  fold w1 new in Hposts.
  destruct (serve_users_groups t NewPost request w) as [Husers _]. fold w1 in Husers.
  assert (user_by_username (User.username u) (db w1) = [u]) as Hme1
    by (unfold user_by_username; by rewrite Husers).
  assert (new ∈ posts (db w1)) as Hnew
    by (rewrite Hposts; apply elem_of_app; right; apply list_elem_of_here).
  split; [|split].
  - intros Hmethod Hmiss.
    destruct (index_uncached_response visit (at_time t' w1))
      as (page & w' & _ & Hview & _).
    unfold serve. cbn [dispatch]. unfold index.
    rewrite (cache_page_miss 20 "index_page" index_uncached visit _ (at_time t' w1) _
               Hmethod Hmiss Hview eq_refl).
    eexists. split; [unfold paginator_of; cbn [fst context_of]; by simplify_map_eq|].
    cbn [Paginator.object_list Paginator.make]. by apply elem_of_newest_first.
  - rewrite (profile_paginator t' _ visit u w1 Hme1).
    eexists. split; [reflexivity|].
    cbn [Paginator.object_list Paginator.make].
    apply elem_of_newest_first, list_elem_of_filter. by split.
  - assert (post_by_pk_author (post_seq (db w)) (User.username u) (db w1) = [new])
      as Hview.
    { unfold post_by_pk_author. rewrite Hposts, filter_app.
      rewrite (filter_key_none _ _ _ Hfresh).
      rewrite filter_cons_True; [done|]. split; [done|].
      unfold authored_by. apply Exists_exists. exists u. split; [|done].
      rewrite Husers.
      assert (u ∈ user_by_username (User.username u) (db w)) as Hin
        by (rewrite Hme; apply list_elem_of_here).
      unfold user_by_username in Hin. by apply list_elem_of_filter in Hin as [_ ?]. }
    destruct (post_view_response t' (User.username u) (post_seq (db w)) visit u new w1
                Hme1 Hview) as [-> _].
    eexists. split; [reflexivity|]. by simplify_map_eq.
Qed.

Lemma key_determines_post post q (l : list Post.t) :
  NoDup (Post.pk <$> l) → post ∈ l → q ∈ l → Post.pk q = Post.pk post → q = post.
Proof.
  induction l as [|x l IH]; [by intros _ ?%elem_of_nil|].
  rewrite fmap_cons. intros [Hnotin Hnodup]%NoDup_cons Hpost Hq Hpk.
  apply elem_of_cons in Hpost as [->|Hpost]; apply elem_of_cons in Hq as [->|Hq].
  - done.
  - destruct Hnotin. rewrite <- Hpk. apply list_elem_of_fmap. eauto.
  - destruct Hnotin. rewrite Hpk. apply list_elem_of_fmap. eauto.
  - by apply IH.
Qed.

Lemma filter_replaced (P : Post.t → Prop) `{∀ q, Decision (P q)} post updated post_id
    (l : list Post.t) :
  NoDup (Post.pk <$> l) → post ∈ l →
  Post.pk post = Some post_id → Post.pk updated = Some post_id → P updated →
  filter (λ q, Post.pk q = Some post_id ∧ P q)
    ((λ q, if bool_decide (Post.pk q = Some post_id) then updated else q) <$> l)
  = [updated].
Proof.
  intros Hnodup Hpost Hpk Hupdated HP.
  assert (∀ q, q ∈ l → Post.pk q = Some post_id → q = post) as Hone.
  { intros q Hq Hq_pk. apply (key_determines_post post q l); congruence. }
  induction l as [|x l IH]; [by apply elem_of_nil in Hpost|].
  rewrite fmap_cons in Hnodup. apply NoDup_cons in Hnodup as [Hnotin Hnodup].
  rewrite fmap_cons. case_bool_decide as Hx.
  - rewrite filter_cons_True by done. f_equal.
    assert (x = post) as -> by (apply Hone; [apply list_elem_of_here|done]).
    apply filter_key_none. apply Forall_forall. intros q Hq.
    apply list_elem_of_fmap in Hq as (q0 & -> & Hq0).
    case_bool_decide as Hq0_pk; [|done].
    destruct Hnotin. rewrite Hx, <- Hq0_pk. apply list_elem_of_fmap. eauto.
  - rewrite filter_cons_False by tauto.
    apply elem_of_cons in Hpost as [<-|Hpost]; [done|].
    apply IH; [done|done|].
    intros q Hq. apply Hone. by apply elem_of_cons; right.
Qed.

(** X19: after the author has edited a post with a valid form, and the
    keys of the posts being unique, [post_view] for that post renders the
    edited post: the new text, group and image under the old key, author
    and date. *)
Theorem edited_post_shows_on_post_view
    t t' username post_id request visit u author post text g image w :
  user request = Some u →
  post_by_pk_author post_id username (db w) = [post] →
  Post.author post = Some (User.pk u) →
  PostForm.clean_text (POST request) = Some text →
  (PostForm.clean_group (POST request) w).1 = inr (Some g) →
  PostForm.clean_image (POST request) (FILES request) (Post.image post) = Some image →
  user_by_username username (db w) = [author] →
  NoDup (Post.pk <$> posts (db w)) →
  let updated :=
    Post.Build (Some post_id) text (Post.pub_date post) (Post.author post) g image in
  let w1 := (serve t (PostEdit username post_id) request w).2 in
  ∃ context,
    (serve t' (PostView username post_id) visit w1).1
    = Render "post_view.html" context 200
    ∧ context !! "post" = Some (VPost updated).
Proof.
  intros Huser Hpost Hauthor Htext Hgroup Himage Hname Hnodup updated w1.
  destruct (post_edit_stores t username post_id request u post text g image w
              Huser Hpost Hauthor Htext Hgroup Himage) as (_ & Hposts & _).
  fold w1 updated in Hposts.
  destruct (serve_users_groups t (PostEdit username post_id) request w) as [Husers _].
  fold w1 in Husers.
  assert (post ∈ posts (db w) ∧ Post.pk post = Some post_id
          ∧ authored_by username (db w) post) as (Hin & Hpk & Hby).
  { assert (post ∈ post_by_pk_author post_id username (db w)) as Hp
      by (rewrite Hpost; apply list_elem_of_here).
    unfold post_by_pk_author in Hp.
    by apply list_elem_of_filter in Hp as [[? ?] ?]. }
  assert (user_by_username username (db w1) = [author]) as Hname1
    by (unfold user_by_username; by rewrite Husers).
  assert (post_by_pk_author post_id username (db w1) = [updated]) as Hview.
  { unfold post_by_pk_author. rewrite Hposts.
    apply (filter_replaced _ post); [done..|].
    unfold authored_by in *. by rewrite Husers. }
  destruct (post_view_response t' username post_id visit author updated w1
              Hname1 Hview) as [-> _].
  eexists. split; [reflexivity|]. by simplify_map_eq.
Qed.

(** The tables that [add_comment] leaves for a valid form. *)
Lemma add_comment_tables t username post_id request u post text w :
  user request = Some u →
  post_by_pk_author post_id username (db w) = [post] →
  CommentForm.clean_text (POST request) = Some text →
  db (serve t (AddComment username post_id) request w).2
  = set_comments
      (comments (db w)
       ++ [Comment.Build (Some (comment_seq (db w))) (Some post_id)
             (Some (User.pk u)) text t])
      (S (comment_seq (db w))) (db w).
Proof.
  intros Huser Hpost Htext.
  assert (Post.pk post = Some post_id) as Hpk.
  { apply (post_by_pk_author_pk post_id username (db w)). rewrite Hpost.
    apply list_elem_of_here. }
  destruct post as [pk ptext pdate pauthor pgroup pimage].
  cbn [Post.pk] in Hpk. subst pk.
  unfold serve. cbn [dispatch]. unfold add_comment, login_required. rewrite Huser.
  rewrite (bind_get_object _ _ (at_time t w) _ Hpost).
  rewrite (clean_text_not_empty _ _ Htext).
  unfold CommentForm.is_valid, CommentForm.init, Form.is_bound.
  cbn [Form.data Form.files Form.instance default id].
  rewrite bool_decide_eq_true_2 by done. cbn [orb]. rewrite Htext.
  rewrite bind_ret. cbn [negb].
  unfold CommentForm.save, save_comment. cbn. rewrite bind_ret.
  reflexivity.
Qed.

(** X20: a comment that [add_comment] has stored shows on the page of
    its post: [post_view] lists the comments the post had and then the
    new one, with the submitted text, the user of the request as author
    and the time of the request. *)
Theorem comment_shows_on_post_view
    t t' username post_id request visit u author post text w :
  user request = Some u →
  post_by_pk_author post_id username (db w) = [post] →
  user_by_username username (db w) = [author] →
  CommentForm.clean_text (POST request) = Some text →
  let w1 := (serve t (AddComment username post_id) request w).2 in
  ∃ context,
    (serve t' (PostView username post_id) visit w1).1
    = Render "post_view.html" context 200
    ∧ context !! "post" = Some (VPost post)
    ∧ context !! "comments"
      = Some (VComments
                (post_comments post (db w)
                 ++ [Comment.Build (Some (comment_seq (db w))) (Some post_id)
                       (Some (User.pk u)) text t])).
Proof.
  intros Huser Hpost Hname Htext w1.
  pose proof (add_comment_tables t username post_id request u post text w
                Huser Hpost Htext) as Hdb. fold w1 in Hdb.
  assert (Post.pk post = Some post_id) as Hpk.
  { apply (post_by_pk_author_pk post_id username (db w)). rewrite Hpost.
    apply list_elem_of_here. }
  assert (user_by_username username (db w1) = [author]) as Hname1
    by (by rewrite Hdb).
  assert (post_by_pk_author post_id username (db w1) = [post]) as Hpost1
    by (by rewrite Hdb).
  destruct (post_view_response t' username post_id visit author post w1
              Hname1 Hpost1) as [-> _].
  eexists. split; [reflexivity|]. split; [by simplify_map_eq|].
  rewrite Hdb. unfold post_comments. cbn [set_comments comments].
  rewrite filter_app, filter_cons_True by (by rewrite Hpk).
  by simplify_map_eq.
Qed.
End Shown.

(** ** Instances of the further properties *)

Section FurtherWitnesses.
Import Sample.
Local Existing Instance gif_decoder.
Local Existing Instance media_storage.
Local Existing Instance ascii_int.

Lemma read_handlers_change_no_table_witness :
  db (serve 9 (Profile "test_user") (get "/test_user/" None) (world 3)).2 = db (world 3).
Proof.
  apply (read_handlers_change_no_table 9 (Profile "test_user")
           (get "/test_user/" None) (world 3)).
  reflexivity.
Defined.

Lemma missing_target_is_not_found_witness :
  let visit := get "/test_user/7/" None in
  (serve 9 (PostView "test_user" 7) visit (world 1)).1 = not_found_page visit
  ∧ db (serve 9 (PostView "test_user" 7) visit (world 1)).2 = db (world 1).
Proof.
  intros visit.
  apply (missing_target_is_not_found 9 (PostView "test_user" 7) visit (world 1)).
  - vm_compute. discriminate.
  - right. split; [exists test_user|]; vm_compute; reflexivity.
Defined.

(** [test_new_post_authorized_user] *)
Lemma new_post_creates_post_of_user_witness :
  let send :=
    request "POST" "/new/" (Some test_user) ∅
      {[ "text" := "Text test!"; "group" := "1" ]} ∅ in
  (serve 9 NewPost send (world 0)).1 = Redirect RIndex
  ∧ posts (db (serve 9 NewPost send (world 0)).2)
    = (posts (db (world 0))
       ++ [Post.Build (Some (post_seq (db (world 0)))) "Text test!" 9
             (Some (User.pk test_user)) (Some 1%nat) None])%list
  ∧ post_seq (db (serve 9 NewPost send (world 0)).2) = S (post_seq (db (world 0)))
  ∧ comments (db (serve 9 NewPost send (world 0)).2) = comments (db (world 0))
  ∧ follows (db (serve 9 NewPost send (world 0)).2) = follows (db (world 0)).
Proof.
  intros send.
  apply (new_post_creates_post_of_user 9 send test_user "Text test!" (Some 1%nat)
           (world 0)); vm_compute; reflexivity.
Defined.


(** [test_edit_post], with the upload of [test_image_on_pages] *)
Lemma post_edit_by_author_updates_in_place_witness :
  let send :=
    request "POST" "/test_user/1/edit/" (Some test_user) ∅
      {[ "text" := "Changed text"; "group" := "1" ]} {[ "image" := foo_image ]} in
  (serve 9 (PostEdit "test_user" 1) send (world 2)).1
  = Redirect (RPostView "test_user" 1)
  ∧ posts (db (serve 9 (PostEdit "test_user" 1) send (world 2)).2)
    = (λ q, if bool_decide (Post.pk q = Some 1%nat)
            then Post.Build (Some 1%nat) "Changed text"
                   (Post.pub_date (post_number 1)) (Post.author (post_number 1))
                   (Some 1%nat) (Some (stored_name foo_image))
            else q) <$> posts (db (world 2))
  ∧ post_seq (db (serve 9 (PostEdit "test_user" 1) send (world 2)).2)
    = post_seq (db (world 2))
  ∧ comments (db (serve 9 (PostEdit "test_user" 1) send (world 2)).2)
    = comments (db (world 2))
  ∧ follows (db (serve 9 (PostEdit "test_user" 1) send (world 2)).2)
    = follows (db (world 2)).
Proof.
  intros send.
  apply (post_edit_by_author_updates_in_place 9 "test_user" 1%nat send test_user
           (post_number 1) "Changed text" (Some 1%nat) (Some (stored_name foo_image))
           (world 2));
    vm_compute; reflexivity.
Defined.


(** [test_check_follow_auth] *)
Lemma profile_follow_adds_the_row_witness :
  let send := get "/follower/follow/" (Some test_user) in
  (serve 3 (ProfileFollow "follower") send (world 1)).1 = Redirect (RProfile "follower")
  ∧ follows (db (serve 3 (ProfileFollow "follower") send (world 1)).2)
    = (follows (db (world 1))
       ++ [Follow.Build (follow_seq (db (world 1))) (User.pk test_user)
             (User.pk follower)])%list
  ∧ posts (db (serve 3 (ProfileFollow "follower") send (world 1)).2)
    = posts (db (world 1))
  ∧ comments (db (serve 3 (ProfileFollow "follower") send (world 1)).2)
    = comments (db (world 1)).
Proof.
  intros send.
  apply (profile_follow_adds_the_row 3 "follower" send test_user follower (world 1)).
  - reflexivity.
  - vm_compute. reflexivity.
  - vm_compute. discriminate.
  - vm_compute. reflexivity.
Defined.

(** [test_check_unfollow] *)
Lemma profile_unfollow_deletes_the_pair_witness :
  let send := get "/test_user/follow/" (Some follower) in
  let w := (serve 3 (ProfileFollow "test_user") send (world 1)).2 in
  (serve 4 (ProfileUnfollow "test_user") send w).1 = Redirect (RProfile "test_user")
  ∧ follow_rows follower test_user
      (db (serve 4 (ProfileUnfollow "test_user") send w).2) = []
  ∧ (∀ f, f ∈ follows (db (serve 4 (ProfileUnfollow "test_user") send w).2)
          ↔ f ∈ follows (db w)
            ∧ ¬ (Follow.user f = User.pk follower
                 ∧ Follow.author f = User.pk test_user))
  ∧ posts (db (serve 4 (ProfileUnfollow "test_user") send w).2) = posts (db w)
  ∧ comments (db (serve 4 (ProfileUnfollow "test_user") send w).2) = comments (db w).
Proof.
  intros send w.
  apply (profile_unfollow_deletes_the_pair 4 "test_user" send follower test_user w).
  - reflexivity.
  - vm_compute. reflexivity.
Defined.

Lemma follow_then_unfollow_restores_table_witness :
  let send := get "/test_user/follow/" (Some follower) in
  follows (db (serve 4 (ProfileUnfollow "test_user") send
                 (serve 3 (ProfileFollow "test_user") send (world 1)).2).2)
  = follows (db (world 1)).
Proof.
  intros send.
  apply (follow_then_unfollow_restores_table 3 4 "test_user" send follower test_user
           (world 1)); vm_compute; reflexivity.
Defined.

Lemma unfollow_then_follow_leaves_one_row_witness :
  let send := get "/test_user/follow/" (Some follower) in
  follow_rows follower test_user
    (db (serve 4 (ProfileFollow "test_user") send
           (serve 3 (ProfileUnfollow "test_user") send (world 1)).2).2)
  = [Follow.Build (follow_seq (db (world 1))) (User.pk follower) (User.pk test_user)].
Proof.
  intros send.
  apply (unfollow_then_follow_leaves_one_row 3 4 "test_user" send follower test_user
           (world 1)).
  - reflexivity.
  - vm_compute. reflexivity.
  - vm_compute. discriminate.
Defined.

(** [test_entry_appears_feed] *)
Lemma follow_and_unfollow_fill_and_empty_the_feed_witness :
  let send := get "/test_user/follow/" (Some follower) in
  let visit := get "/follow/" (Some follower) in
  let w1 := (serve 3 (ProfileFollow "test_user") send (world 2)).2 in
  let w2 := (serve 4 (ProfileUnfollow "test_user") send w1).2 in
  (∃ feed, paginator_of (serve 5 FollowIndex visit w1).1 = Some feed
           ∧ ∀ p, p ∈ posts (db (world 2)) →
                  Post.author p = Some (User.pk test_user) →
                  p ∈ Paginator.object_list feed)
  ∧ (∃ feed, paginator_of (serve 5 FollowIndex visit w2).1 = Some feed
             ∧ ∀ p, p ∈ Paginator.object_list feed →
                    Post.author p ≠ Some (User.pk test_user)).
Proof.
  intros send visit.
  apply (follow_and_unfollow_fill_and_empty_the_feed 3 4 5 "test_user" send visit
           follower follower test_user (world 2)).
  - reflexivity.
  - reflexivity.
  - vm_compute. reflexivity.
  - vm_compute. reflexivity.
  - vm_compute. discriminate.
Defined.

Lemma group_posts_lists_the_group_witness :
  let visit := get "/group/test_group/" None in
  ∃ context page paginator,
    (serve 9 (GroupPosts "test_group") visit (world 3)).1
    = Render "group.html" context 200
    ∧ context !! "group" = Some (VGroup test_group)
    ∧ context !! "page" = Some (VPage page)
    ∧ context !! "paginator" = Some (VPaginator paginator)
    ∧ Paginator.get_page paginator (GET visit !! "page") = inr page
    ∧ (∀ p, p ∈ Paginator.object_list paginator
            ↔ p ∈ posts (db (world 3)) ∧ Post.group p = Some (Group.pk test_group))
    ∧ (∀ p, p ∈ Paginator.page_object_list page → p ∈ Paginator.object_list paginator).
Proof.
  intros visit.
  apply (group_posts_lists_the_group 9 "test_group" visit test_group (world 3)).
  vm_compute. reflexivity.
Defined.

Lemma profile_shows_posts_count_and_following_witness :
  let visit := get "/test_user/" (Some follower) in
  ∃ context page paginator,
    (serve 9 (Profile "test_user") visit (world 3)).1
    = Render "profile.html" context 200
    ∧ context !! "author" = Some (VUser test_user)
    ∧ context !! "page" = Some (VPage page)
    ∧ context !! "paginator" = Some (VPaginator paginator)
    ∧ Paginator.get_page paginator (GET visit !! "page") = inr page
    ∧ (∀ p, p ∈ Paginator.object_list paginator
            ↔ p ∈ posts (db (world 3)) ∧ Post.author p = Some (User.pk test_user))
    ∧ context !! "count_posts"
      = Some (VInt (Z.of_nat (length (author_posts test_user (db (world 3))))))
    ∧ context !! "following"
      = Some (VBool (match user visit with
                     | Some viewer =>
                         bool_decide (follow_rows viewer test_user (db (world 3)) ≠ [])
                     | None => false
                     end)).
Proof.
  intros visit.
  apply (profile_shows_posts_count_and_following 9 "test_user" visit test_user
           (world 3)).
  vm_compute. reflexivity.
Defined.

Lemma pages_split_the_list_witness :
  let l := post_number <$> seq 1 11 in
  let p := Paginator.make l 10 in
  concat (all_pages p) = l
  ∧ length (page_items p 1) = 10%nat
  ∧ page_items p (Paginator.num_pages p) ≠ [].
Proof.
  intros l p.
  destruct (pages_split_the_list l) as (Hconcat & Hfull & Hlast).
  split; [exact Hconcat|]. split.
  - apply Hfull. split; reflexivity.
  - apply Hlast. discriminate.
Defined.

Lemma index_miss_lists_every_post_witness :
  let visit := get "/" None in
  ∃ context page paginator,
    (serve 9 Index visit (world 3)).1 = Render "index.html" context 200
    ∧ context !! "paginator" = Some (VPaginator paginator)
    ∧ context !! "page" = Some (VPage page)
    ∧ Paginator.object_list paginator ≡ₚ posts (db (world 3))
    ∧ Paginator.get_page paginator (GET visit !! "page") = inr page
    ∧ db (serve 9 Index visit (world 3)).2 = db (world 3).
Proof.
  intros visit.
  apply (index_miss_lists_every_post 9 visit (world 3)).
  - reflexivity.
  - intros (e & He & _). vm_compute in He. discriminate He.
Defined.

Lemma index_never_older_than_20_seconds_witness :
  let visit := get "/" None in
  let send :=
    request "POST" "/new/" (Some test_user) ∅ {[ "text" := "Text test!" ]} ∅ in
  let w' := run [(5, Index, visit); (10, NewPost, send)] (world 1) in
  ∃ context page paginator,
    (serve 30 Index visit w').1 = Render "index.html" context 200
    ∧ context !! "paginator" = Some (VPaginator paginator)
    ∧ context !! "page" = Some (VPage page)
    ∧ Paginator.object_list paginator ≡ₚ posts (db w')
    ∧ Paginator.get_page paginator (GET visit !! "page") = inr page
    ∧ (queries w' < queries (serve 30 Index visit w').2)%nat.
Proof.
  intros visit send.
  apply (index_never_older_than_20_seconds 10 30 visit
           [(5, Index, visit); (10, NewPost, send)] (world 1)).
  - reflexivity.
  - intros k e He. vm_compute in He. discriminate He.
  - repeat constructor; vm_compute; discriminate.
  - vm_compute. discriminate.
Defined.

(** [test_new_post_location] *)
Lemma new_post_shows_on_the_pages_witness :
  let send :=
    request "POST" "/new/" (Some test_user) ∅
      {[ "text" := "Text test!"; "group" := "1" ]} ∅ in
  let visit := get "/" None in
  let new :=
    Post.Build (Some (post_seq (db (world 1)))) "Text test!" 9
      (Some (User.pk test_user)) (Some 1%nat) None in
  let w1 := (serve 9 NewPost send (world 1)).2 in
  (∃ list, paginator_of (serve 12 Index visit w1).1 = Some list
           ∧ new ∈ Paginator.object_list list)
  ∧ (∃ list, paginator_of (serve 12 (Profile (User.username test_user)) visit w1).1
             = Some list
             ∧ new ∈ Paginator.object_list list)
  ∧ (∃ context,
       (serve 12 (PostView (User.username test_user) (post_seq (db (world 1))))
          visit w1).1
       = Render "post_view.html" context 200
       ∧ context !! "post" = Some (VPost new)).
Proof.
  intros send visit new w1.
  destruct (new_post_shows_on_the_pages 9 12 send visit test_user "Text test!"
              (Some 1%nat) (world 1)) as (Hindex & Hprofile & Hview).
  - reflexivity.
  - vm_compute. reflexivity.
  - vm_compute. reflexivity.
  - vm_compute. reflexivity.
  - repeat constructor. vm_compute. discriminate.
  - split; [|split; [exact Hprofile|exact Hview]].
    apply Hindex; [reflexivity|].
    intros (e & He & _). vm_compute in He. discriminate He.
Defined.

Lemma edited_post_shows_on_post_view_witness :
  let send :=
    request "POST" "/test_user/1/edit/" (Some test_user) ∅
      {[ "text" := "Changed text" ]} ∅ in
  let visit := get "/test_user/1/" None in
  let updated :=
    Post.Build (Some 1%nat) "Changed text" (Post.pub_date (post_number 1))
      (Post.author (post_number 1)) None None in
  let w1 := (serve 9 (PostEdit "test_user" 1) send (world 2)).2 in
  ∃ context,
    (serve 12 (PostView "test_user" 1) visit w1).1 = Render "post_view.html" context 200
    ∧ context !! "post" = Some (VPost updated).
Proof.
  intros send visit.
  apply (edited_post_shows_on_post_view 9 12 "test_user" 1%nat send visit test_user
           test_user (post_number 1) "Changed text" None None (world 2)).
  - reflexivity.
  - vm_compute. reflexivity.
  - reflexivity.
  - vm_compute. reflexivity.
  - vm_compute. reflexivity.
  - vm_compute. reflexivity.
  - vm_compute. reflexivity.
  - vm_compute. apply NoDup_cons_2; [|apply NoDup_singleton].
    by intros [=]%list_elem_of_singleton.
Defined.

(** [test_auth_user_can_comment] *)
Lemma comment_shows_on_post_view_witness :
  let send :=
    request "POST" "/test_user/1/comment/" (Some follower) ∅
      {[ "text" := "Test comment" ]} ∅ in
  let visit := get "/test_user/1/" None in
  let w1 := (serve 9 (AddComment "test_user" 1) send (world 1)).2 in
  ∃ context,
    (serve 12 (PostView "test_user" 1) visit w1).1 = Render "post_view.html" context 200
    ∧ context !! "post" = Some (VPost (post_number 1))
    ∧ context !! "comments"
      = Some (VComments
                (post_comments (post_number 1) (db (world 1))
                 ++ [Comment.Build (Some (comment_seq (db (world 1)))) (Some 1%nat)
                       (Some (User.pk follower)) "Test comment" 9])).
Proof.
  intros send visit.
  apply (comment_shows_on_post_view 9 12 "test_user" 1%nat send visit follower
           test_user (post_number 1) "Test comment" (world 1)).
  - reflexivity.
  - vm_compute. reflexivity.
  - vm_compute. reflexivity.
  - vm_compute. reflexivity.
Defined.
End FurtherWitnesses.
